(** * YouTube Video Metrics Collector: a shallow embedding and its properties

    The development follows [youtube_metrics_collector.py]:
    [read_api_key], [extract_video_id], [get_video_metrics],
    [read_input_csv], [write_output_csv] and [main].

    Conventions of the embedding.
    - A Python [str] is a Rocq [string], one [ascii] per code point; the
      model therefore covers the code points below 256.  Comparison of
      strings is by code point, as in Python.
    - A Python [dict] is an association list in insertion order: assigning
      to a key that is present replaces the value in place, assigning to a
      new key appends the entry.
    - Console output, remote requests and the output file are events of a
      trace; exceptions are values.  Both are threaded by the monad [io].
    - [urllib.parse] is a library of the interpreter, not of this program:
      its two functions are the operations of the class [Urllib].
    - The remote service is a function of the number of the request
      (counting from 0) and of the [id] parameter it receives. *)

From Stdlib Require Import String Ascii List Arith Bool Lia.
From Stdlib Require Import DecimalString Sorted Permutation OrderedTypeEx.
Import ListNotations.

Local Open Scope string_scope.
Local Open Scope list_scope.
Local Open Scope nat_scope.

Infix "+++" := String.append (at level 60, right associativity).

(* ====================================================================== *)
(** * Strings *)
(* ====================================================================== *)

(** The newline character of the f-strings that start or end with it. *)
Definition nl : string := String (ascii_of_nat 10) "".

(** [str(n)] for a non-negative integer. *)
Definition show (n : nat) : string := NilEmpty.string_of_uint (Nat.to_uint n).

Definition in_range (lo hi c : ascii) : bool :=
  (nat_of_ascii lo <=? nat_of_ascii c) && (nat_of_ascii c <=? nat_of_ascii hi).

(** The character class [[a-zA-Z0-9_-]]. *)
Definition is_id_char (c : ascii) : bool :=
  in_range "a" "z" c || in_range "A" "Z" c || in_range "0" "9" c
  || Ascii.eqb c "_" || Ascii.eqb c "-".

(** [str.isspace] on one code point below 256: the characters that
    [str.strip()] removes. *)
Definition is_space (c : ascii) : bool :=
  let n := nat_of_ascii c in
  ((9 <=? n) && (n <=? 13)) || ((28 <=? n) && (n <=? 32))
  || (n =? 133) || (n =? 160).

Definition is_slash (c : ascii) : bool := Ascii.eqb c "/".

Definition is_empty (s : string) : bool :=
  match s with EmptyString => true | String _ _ => false end.

Fixpoint all_chars (p : ascii -> bool) (s : string) : bool :=
  match s with
  | EmptyString => true
  | String c s' => p c && all_chars p s'
  end.

(** The longest prefix of [s] made of characters satisfying [p]. *)
Fixpoint take_while (p : ascii -> bool) (s : string) : string :=
  match s with
  | EmptyString => EmptyString
  | String c s' => if p c then String c (take_while p s') else EmptyString
  end.

(** [s] without its prefix [pat], when it has that prefix. *)
Fixpoint drop_prefix (pat s : string) : option string :=
  match pat, s with
  | EmptyString, _ => Some s
  | String a pat', String b s' =>
      if Ascii.eqb a b then drop_prefix pat' s' else None
  | String _ _, EmptyString => None
  end.

(** [pat in s]. *)
Fixpoint contains (pat s : string) : bool :=
  match drop_prefix pat s with
  | Some _ => true
  | None =>
      match s with
      | EmptyString => false
      | String _ s' => contains pat s'
      end
  end.

(** [s.find(pat)], with [None] for -1. *)
Fixpoint str_find (pat s : string) : option nat :=
  match drop_prefix pat s with
  | Some _ => Some 0
  | None =>
      match s with
      | EmptyString => None
      | String _ s' => option_map S (str_find pat s')
      end
  end.

Fixpoint lstrip (p : ascii -> bool) (s : string) : string :=
  match s with
  | EmptyString => EmptyString
  | String c s' => if p c then lstrip p s' else s
  end.

Fixpoint rstrip (p : ascii -> bool) (s : string) : string :=
  match s with
  | EmptyString => EmptyString
  | String c s' =>
      match rstrip p s' with
      | EmptyString => if p c then EmptyString else String c EmptyString
      | r => String c r
      end
  end.

(** [s.strip(chars)], and [s.strip()] with [p := is_space]. *)
Definition strip (p : ascii -> bool) (s : string) : string :=
  rstrip p (lstrip p s).

(** [sep.join(l)]. *)
Definition join (sep : string) (l : list string) : string := String.concat sep l.

(** [x in l] for a list or a set of strings. *)
Definition mem (x : string) (l : list string) : bool :=
  existsb (String.eqb x) l.

(* ====================================================================== *)
(** * Dictionaries *)
(* ====================================================================== *)

Definition dict (V : Type) : Type := list (string * V).

(** [d.get(k)]. *)
Fixpoint dict_get {V : Type} (k : string) (d : dict V) : option V :=
  match d with
  | [] => None
  | (k', v) :: d' => if String.eqb k k' then Some v else dict_get k d'
  end.

(** [d[k] = v]. *)
Fixpoint dict_set {V : Type} (k : string) (v : V) (d : dict V) : dict V :=
  match d with
  | [] => [(k, v)]
  | (k', v') :: d' =>
      if String.eqb k k' then (k', v) :: d' else (k', v') :: dict_set k v d'
  end.

(** [k in d]. *)
Definition dict_mem {V : Type} (k : string) (d : dict V) : bool :=
  match dict_get k d with Some _ => true | None => false end.

Definition dict_keys {V : Type} (d : dict V) : list string := map fst d.

(** [d.get(k, default)]. *)
Definition get_default {V : Type} (k : string) (default : V) (d : dict V) : V :=
  match dict_get k d with Some v => v | None => default end.

(* ====================================================================== *)
(** * Configuration *)
(* ====================================================================== *)

Definition API_KEY_FILE : string := "youtube_api_key.txt".
Definition INPUT_CSV : string := "2025_video_links.csv".

(** [current_date] is [datetime.now()] formatted when the module is loaded. *)
Definition OUTPUT_CSV (current_date : string) : string :=
  "results/youtube_metrics_output_" +++ current_date +++ ".csv".

Definition batch_size : nat := 50.

(* ====================================================================== *)
(** * Data *)
(* ====================================================================== *)

(** A row of [read_input_csv]: the dictionary with keys [nickname], [url]. *)
Record InputRecord := { nickname : string; url : string }.

(** A metrics dictionary of [get_video_metrics]. *)
Record MetricsOutcome := {
  title : string;
  channel_name : string;
  upload_date : string;
  view_count : string;
  like_count : string;
  comment_count : string;
  duration : string;
  error : option string
}.

(** A [combined_row] of [main], in the column order of the output file. *)
Record ReportRow := {
  r_nickname : string;
  r_title : string;
  r_channel_name : string;
  r_upload_date : string;
  r_url : string;
  r_video_id : string;
  r_view_count : string;
  r_like_count : string;
  r_comment_count : string;
  r_duration : string;
  r_error : string
}.

(** An element of [response['items']].  The keys [id] and [snippet] are
    read with [item[...]], the two others with [item.get(..., {})]; the
    three inner dictionaries map field names to strings. *)
Record item := {
  item_id : string;
  snippet : dict string;
  statistics : option (dict string);
  contentDetails : option (dict string)
}.

(** What [execute()] does: it returns a response or raises [HttpError]
    with a status and a decoded body. *)
Inductive response :=
| Response (items : list item)
| HttpError (status : nat) (content : string).

Definition remote_service : Type := nat -> string -> response.

Inductive event :=
| Print (line : string)
| Request (part id : string)
| WriteCsv (filename : string) (fieldnames : list string) (rows : list ReportRow).

Inductive exn := FileNotFoundError | ValueError | IndexError | KeyError.

Inductive exc (A : Type) :=
| Return (a : A)
| Raise (e : exn).
Arguments Return {A} a.
Arguments Raise {A} e.

(* ====================================================================== *)
(** * The monad of traces and exceptions *)
(* ====================================================================== *)

Definition io (A : Type) : Type := (list event * exc A)%type.

Definition ret {A : Type} (a : A) : io A := ([], Return a).

Definition raise {A : Type} (e : exn) : io A := ([], Raise e).

Definition bind {A B : Type} (m : io A) (f : A -> io B) : io B :=
  match m with
  | (ev, Return a) => let (ev', r) := f a in (ev ++ ev', r)
  | (ev, Raise e) => (ev, Raise e)
  end.

Notation "x <- m ;; k" := (bind m (fun x => k))
  (at level 61, m at next level, right associativity).
Notation "m ;;; k" := (bind m (fun _ => k))
  (at level 61, right associativity).

Definition print (line : string) : io unit := ([Print line], Return tt).

Definition emit (e : event) : io unit := ([e], Return tt).

(** [try: m except ...]: the outcome of [m] as a value. *)
Definition try {A : Type} (m : io A) : io (exc A) :=
  (fst m, Return (snd m)).

(** The exit status of the interpreter that ran [main()]. *)
Definition exit_status {A : Type} (m : io A) : nat :=
  match snd m with Return _ => 0 | Raise _ => 1 end.

(** The [id] parameters of the requests of a trace, in order. *)
Fixpoint requests_of (ev : list event) : list string :=
  match ev with
  | [] => []
  | Request _ id :: ev' => id :: requests_of ev'
  | _ :: ev' => requests_of ev'
  end.

(** The row sets written to files by a trace, in order. *)
Fixpoint writes_of (ev : list event) : list (list ReportRow) :=
  match ev with
  | [] => []
  | WriteCsv _ _ rows :: ev' => rows :: writes_of ev'
  | _ :: ev' => writes_of ev'
  end.

(* ====================================================================== *)
(** * Reading the API key *)
(* ====================================================================== *)

(** The files a run can read: [files] gives the text of a file, [tables]
    the rows [csv.DictReader] yields for it; [None] is a missing file.  The
    other failures of [open] and [read] (permissions, a directory, bytes
    that are not UTF-8) are not part of the model. *)
Record filesystem := {
  files : string -> option string;
  tables : string -> option (list (dict string))
}.

Definition read_api_key (fs : filesystem) (filename : string) : io string :=
  match files fs filename with
  | Some content =>
      let api_key := strip is_space content in
      if is_empty api_key then raise ValueError else ret api_key
  | None =>
      print (nl +++ "Error: API key file '" +++ filename +++ "' not found.") ;;;
      print "Please create this file and add your YouTube Data API v3 key to it." ;;;
      print ("The file should contain only your API key with no extra text." +++ nl) ;;;
      raise FileNotFoundError
  end.

(* ====================================================================== *)
(** * URL parsing *)
(* ====================================================================== *)

(** The result of [urlparse], and the two functions of [urllib.parse] the
    program calls.  [urlparse] raises [ValueError] on some malformed
    inputs; [parse_qs] maps a parameter name to the list of its values. *)
Record ParseResult := {
  scheme : string;
  netloc : string;
  path : string;
  params : string;
  query : string;
  fragment : string
}.

Class Urllib := {
  urlparse : string -> exc ParseResult;
  parse_qs : string -> dict (list string)
}.

(** A match of [/shorts/([a-zA-Z0-9_-]+)] that starts at the first character
    of [s]: its group 1. *)
Definition match_shorts (s : string) : option string :=
  match drop_prefix "/shorts/" s with
  | Some rest =>
      let group1 := take_while is_id_char rest in
      if is_empty group1 then None else Some group1
  | None => None
  end.

(** [re.search(r'/shorts/([a-zA-Z0-9_-]+)', url)]: group 1 of the leftmost
    match. *)
Fixpoint shorts_match (url : string) : option string :=
  match match_shorts url with
  | Some group1 => Some group1
  | None =>
      match url with
      | EmptyString => None
      | String _ rest => shorts_match rest
      end
  end.

(** The body of the [youtu.be] branch. *)
Definition youtu_be_rule {L : Urllib} (url : string) : io (option string) :=
  match urlparse url with
  | Raise e => raise e
  | Return parsed =>
      let video_id := strip is_slash (path parsed) in
      ret (if is_empty video_id then None else Some video_id)
  end.

(** The body of the [/watch?v=] branch; [[0]] of an empty list raises. *)
Definition watch_rule {L : Urllib} (url : string) : io (option string) :=
  match urlparse url with
  | Raise e => raise e
  | Return parsed =>
      let query_params := parse_qs (query parsed) in
      match dict_get "v" query_params with
      | None => ret None
      | Some [] => raise IndexError
      | Some (v :: _) => ret (Some v)
      end
  end.

Definition extract_video_id {L : Urllib} (url : string) : io (option string) :=
  match shorts_match url with
  | Some group1 => ret (Some group1)
  | None =>
      if contains "youtu.be/" url then youtu_be_rule url
      else if contains "youtube.com/watch" url then watch_rule url
      else ret None
  end.

(* ====================================================================== *)
(** * The YouTube API *)
(* ====================================================================== *)

(** [range(i, stop, step)], unfolded at most [fuel] times. *)
Fixpoint range_from (fuel i stop step : nat) : list nat :=
  match fuel with
  | 0 => []
  | S fuel' =>
      if i <? stop then i :: range_from fuel' (i + step) stop step else []
  end.

(** [range(0, stop, step)] for a positive [step]. *)
Definition range (stop step : nat) : list nat := range_from stop 0 stop step.

(** [l[i:j]] for [i <= j]. *)
Definition slice {A : Type} (l : list A) (i j : nat) : list A :=
  firstn (j - i) (skipn i l).

(** The value of [batch] in each round of the loop. *)
Definition batches (video_ids : list string) : list (list string) :=
  map (fun i => slice video_ids i (i + batch_size))
      (range (length video_ids) batch_size).

Definition part : string := "snippet,statistics,contentDetails".

Definition found (it : item) : MetricsOutcome :=
  let statistics := match statistics it with Some d => d | None => [] end in
  let content_details := match contentDetails it with Some d => d | None => [] end in
  {| title := get_default "title" "N/A" (snippet it);
     channel_name := get_default "channelTitle" "N/A" (snippet it);
     upload_date := get_default "publishedAt" "N/A" (snippet it);
     view_count := get_default "viewCount" "0" statistics;
     like_count := get_default "likeCount" "0" statistics;
     comment_count := get_default "commentCount" "0" statistics;
     duration := get_default "duration" "N/A" content_details;
     error := None |}.

(** The dictionary both failure branches store, up to its [error]. *)
Definition placeholder (err : string) : MetricsOutcome :=
  {| title := "N/A";
     channel_name := "N/A";
     upload_date := "N/A";
     view_count := "0";
     like_count := "0";
     comment_count := "0";
     duration := "N/A";
     error := Some err |}.

Definition not_found : string := "Video not found (may be deleted or private)".

(** The seven data fields hold their placeholders. *)
Definition holds_placeholders (o : MetricsOutcome) : Prop :=
  title o = "N/A" /\ channel_name o = "N/A" /\ upload_date o = "N/A"
  /\ view_count o = "0" /\ like_count o = "0" /\ comment_count o = "0"
  /\ duration o = "N/A".

(** An outcome without error, or with a non-empty error and placeholders. *)
Definition classified (o : MetricsOutcome) : Prop :=
  match error o with
  | None => True
  | Some e => e <> "" /\ holds_placeholders o
  end.

(** [f"API Error: {e.resp.status} - {e.content.decode()}"]. *)
Definition api_error (status : nat) (content : string) : string :=
  "API Error: " +++ show status +++ " - " +++ content.

(** The loop over [response.get('items', [])]. *)
Definition store_items (items : list item) (results : dict MetricsOutcome)
  : dict MetricsOutcome :=
  fold_left (fun results it => dict_set (item_id it) (found it) results)
            items results.

(** The loop over [batch] that follows it. *)
Definition store_missing (batch returned_ids : list string)
  (results : dict MetricsOutcome) : dict MetricsOutcome :=
  fold_left (fun results video_id =>
               if mem video_id returned_ids then results
               else dict_set video_id (placeholder not_found) results)
            batch results.

(** The loop over [batch] of the [except] branch. *)
Definition store_failed (batch : list string) (error_message : string)
  (results : dict MetricsOutcome) : dict MetricsOutcome :=
  fold_left (fun results video_id =>
               if dict_mem video_id results then results
               else dict_set video_id (placeholder error_message) results)
            batch results.

(** What one round of the loop does to [results], given the outcome of its
    request. *)
Definition process_batch (r : response) (batch : list string)
  (results : dict MetricsOutcome) : dict MetricsOutcome :=
  match r with
  | Response items =>
      store_missing batch (map item_id items) (store_items items results)
  | HttpError status content =>
      store_failed batch (api_error status content) results
  end.

(** One round of the loop; [n] is the number of requests made so far. *)
Definition round (youtube : remote_service) (n : nat) (batch : list string)
  (results : dict MetricsOutcome) : io (dict MetricsOutcome) :=
  let id := join "," batch in
  emit (Request part id) ;;;
  match youtube n id with
  | Response items => ret (process_batch (Response items) batch results)
  | HttpError status content =>
      print ("Error retrieving batch: " +++ api_error status content) ;;;
      ret (process_batch (HttpError status content) batch results)
  end.

Fixpoint rounds (youtube : remote_service) (n : nat) (bs : list (list string))
  (results : dict MetricsOutcome) : io (dict MetricsOutcome) :=
  match bs with
  | [] => ret results
  | batch :: bs' =>
      results' <- round youtube n batch results ;;
      rounds youtube (S n) bs' results'
  end.

(** [build] is [googleapiclient.discovery.build('youtube', 'v3', developerKey)]. *)
Definition get_video_metrics (build : string -> remote_service)
  (video_ids : list string) (api_key : string) : io (dict MetricsOutcome) :=
  let youtube := build api_key in
  rounds youtube 0 (batches video_ids) [].

(** The value of [results] after the rounds of the batches [bs], the first
    of which makes request [n]. *)
Fixpoint results_from (youtube : remote_service) (n : nat)
  (bs : list (list string)) (results : dict MetricsOutcome)
  : dict MetricsOutcome :=
  match bs with
  | [] => results
  | batch :: bs' =>
      results_from youtube (S n) bs'
        (process_batch (youtube n (join "," batch)) batch results)
  end.

(** The value of [results] after the first [k] rounds of the loop. *)
Definition results_after (youtube : remote_service) (video_ids : list string)
  (k : nat) : dict MetricsOutcome :=
  results_from youtube 0 (firstn k (batches video_ids)) [].

(** The rounds of the loop with their numbers. *)
Definition numbered (video_ids : list string) : list (nat * list string) :=
  combine (seq 0 (length (batches video_ids))) (batches video_ids).

(** Every item of the response to round [nb] carries an identifier of the
    batch of that round. *)
Definition answers_within_round (youtube : remote_service)
  (nb : nat * list string) : bool :=
  match youtube (fst nb) (join "," (snd nb)) with
  | Response items => forallb (fun it => mem (item_id it) (snd nb)) items
  | HttpError _ _ => true
  end.

(** Every item of every response carries an identifier of the batch that
    was requested. *)
Definition answers_within (youtube : remote_service) (video_ids : list string)
  : bool :=
  forallb (answers_within_round youtube) (numbered video_ids).

(** Round [nb] has [video_id] neither in its batch nor in its response. *)
Definition untouched_by_round (youtube : remote_service) (video_id : string)
  (nb : nat * list string) : bool :=
  negb (mem video_id (snd nb))
  && match youtube (fst nb) (join "," (snd nb)) with
     | Response items => negb (mem video_id (map item_id items))
     | HttpError _ _ => true
     end.

(** No round after round [k] has [video_id] in its batch or in its
    response. *)
Definition untouched_after (youtube : remote_service) (video_ids : list string)
  (k : nat) (video_id : string) : bool :=
  forallb (untouched_by_round youtube video_id)
          (skipn (S k) (numbered video_ids)).

(** The last item of a response that carries [video_id]. *)
Definition last_item (video_id : string) (items : list item) : option item :=
  find (fun it => String.eqb video_id (item_id it)) (rev items).

(** Pairwise distinct strings. *)
Fixpoint distinct (l : list string) : bool :=
  match l with
  | [] => true
  | x :: l' => negb (mem x l') && distinct l'
  end.

(* ====================================================================== *)
(** * CSV processing *)
(* ====================================================================== *)

(** [a or b] on the results of [row.get]: [None] and [''] are false. *)
Definition or_else (a b : option string) : option string :=
  match a with
  | Some (String _ _) => a
  | _ => b
  end.

(** [if x:] on an optional string. *)
Definition truthy (x : option string) : option string :=
  match x with
  | Some (String c s) => Some (String c s)
  | _ => None
  end.

Definition read_row (row : dict string) : list InputRecord :=
  let nickname := or_else (dict_get "Nickname" row) (dict_get "nickname" row) in
  let link :=
    or_else (dict_get "Link" row)
      (or_else (dict_get "link" row)
         (or_else (dict_get "URL" row) (dict_get "url" row))) in
  match truthy link with
  | Some link =>
      [ {| nickname := match truthy nickname with Some n => n | None => "N/A" end;
           url := strip is_space link |} ]
  | None => []
  end.

Definition read_input_csv (fs : filesystem) (filename : string)
  : io (list InputRecord) :=
  match tables fs filename with
  | Some reader => ret (flat_map read_row reader)
  | None => raise FileNotFoundError
  end.

Definition fieldnames : list string :=
  [ "nickname"; "title"; "channel_name"; "upload_date"; "url"; "video_id";
    "view_count"; "like_count"; "comment_count"; "duration"; "error" ].

(** The event [WriteCsv] stands for the write of the file; that [open] can
    fail, as it does when the directory of [filename] is missing, is not
    part of the model. *)
Definition write_output_csv (filename : string) (data : list ReportRow)
  : io unit :=
  match data with
  | [] => print "No data to write."
  | _ :: _ =>
      emit (WriteCsv filename fieldnames data) ;;;
      print ("Successfully wrote " +++ show (length data) +++ " rows to "
             +++ filename)
  end.

(* ====================================================================== *)
(** * Main execution *)
(* ====================================================================== *)

(** What a run depends on besides [urllib]. *)
Record world := {
  fs : filesystem;
  build : string -> remote_service;
  current_date : string
}.

(** The loop that fills [video_id_map] and [video_ids]. *)
Fixpoint collect {L : Urllib} (videos : list InputRecord)
  (video_id_map : dict InputRecord) (video_ids : list string)
  : io (dict InputRecord * list string) :=
  match videos with
  | [] => ret (video_id_map, video_ids)
  | video :: videos' =>
      video_id <- extract_video_id (url video) ;;
      match truthy video_id with
      | Some video_id =>
          collect videos' (dict_set video_id video video_id_map)
                  (video_ids ++ [video_id])
      | None =>
          print ("Warning: Could not extract video ID from URL: " +++ url video) ;;;
          collect videos' video_id_map video_ids
      end
  end.

Definition combined_row (video_id_map : dict InputRecord)
  (entry : string * MetricsOutcome) : ReportRow :=
  let (video_id, video_metrics) := entry in
  let original_data := dict_get video_id video_id_map in
  {| r_nickname := match original_data with Some d => nickname d | None => "N/A" end;
     r_title := title video_metrics;
     r_channel_name := channel_name video_metrics;
     r_upload_date := upload_date video_metrics;
     r_url := match original_data with Some d => url d | None => "N/A" end;
     r_video_id := video_id;
     r_view_count := view_count video_metrics;
     r_like_count := like_count video_metrics;
     r_comment_count := comment_count video_metrics;
     r_duration := duration video_metrics;
     r_error := match error video_metrics with Some e => e | None => "" end |}.

(** [list.sort(key=lambda x: x['upload_date'])] is stable and compares keys
    with [<]; these two facts determine its result, which a stable insertion
    sort computes. *)
Fixpoint insert_row (x : ReportRow) (l : list ReportRow) : list ReportRow :=
  match l with
  | [] => [x]
  | y :: l' =>
      if String.ltb (r_upload_date y) (r_upload_date x)
      then y :: insert_row x l'
      else x :: l
  end.

Fixpoint sort_rows (l : list ReportRow) : list ReportRow :=
  match l with
  | [] => []
  | x :: l' => insert_row x (sort_rows l')
  end.

(** The value of [output_data] that [main] writes. *)
Definition output_data (video_id_map : dict InputRecord)
  (metrics : dict MetricsOutcome) : list ReportRow :=
  sort_rows (map (combined_row video_id_map) metrics).

(** [main], up to and including the call of [write_output_csv].  The summary
    of lines 347-359, which follows the write and can itself raise, is not
    part of the model: nothing is stated here about what [main] does after
    the write, nor about its exit status on the runs that reach it. *)
Definition main {L : Urllib} (w : world) : io unit :=
  print ("Loading API key from: " +++ API_KEY_FILE) ;;;
  loaded <- try (API_KEY <- read_api_key (fs w) API_KEY_FILE ;;
                 print "API key loaded successfully" ;;;
                 ret API_KEY) ;;
  match loaded with
  | Raise FileNotFoundError | Raise ValueError => ret tt
  | Raise e => raise e
  | Return API_KEY =>
      print (nl +++ "Reading input file: " +++ INPUT_CSV) ;;;
      videos <- read_input_csv (fs w) INPUT_CSV ;;
      print ("Found " +++ show (length videos) +++ " videos to process") ;;;
      collected <- collect videos [] [] ;;
      let video_id_map := fst collected in
      let video_ids := snd collected in
      print ("Successfully extracted " +++ show (length video_ids)
             +++ " video IDs") ;;;
      match video_ids with
      | [] => print "No valid video IDs found. Exiting."
      | _ :: _ =>
          print "Retrieving metrics from YouTube API..." ;;;
          metrics <- get_video_metrics (build w) video_ids API_KEY ;;
          print ("Retrieved metrics for " +++ show (length metrics)
                 +++ " videos") ;;;
          print ("Writing output file: " +++ OUTPUT_CSV (current_date w)) ;;;
          write_output_csv (OUTPUT_CSV (current_date w))
                           (output_data video_id_map metrics)
      end
  end.

(* ====================================================================== *)
(** * An instance of [Urllib], and sample data *)
(* ====================================================================== *)

(** [s.partition(c)]: the text before the first character satisfying [p],
    and the text after it when there is one. *)
Fixpoint split_on (p : ascii -> bool) (s : string) : string * option string :=
  match s with
  | EmptyString => (EmptyString, None)
  | String c s' =>
      if p c then (EmptyString, Some s')
      else let (a, b) := split_on p s' in (String c a, b)
  end.

(** [s.split(c)] for a separator of one character. *)
Fixpoint split_all (p : ascii -> bool) (s : string) : list string :=
  match s with
  | EmptyString => [EmptyString]
  | String c s' =>
      if p c then EmptyString :: split_all p s'
      else match split_all p s' with
           | h :: t => String c h :: t
           | [] => [String c EmptyString]
           end
  end.

Definition is_alpha (c : ascii) : bool :=
  in_range "a" "z" c || in_range "A" "Z" c.

Definition is_scheme_char (c : ascii) : bool :=
  is_alpha c || in_range "0" "9" c
  || Ascii.eqb c "+" || Ascii.eqb c "-" || Ascii.eqb c ".".

Definition lower_char (c : ascii) : ascii :=
  if in_range "A" "Z" c then ascii_of_nat (nat_of_ascii c + 32) else c.

Fixpoint lower (s : string) : string :=
  match s with
  | EmptyString => EmptyString
  | String c s' => String (lower_char c) (lower s')
  end.

Definition ends_netloc (c : ascii) : bool :=
  Ascii.eqb c "/" || Ascii.eqb c "?" || Ascii.eqb c "#".

Fixpoint drop_while (p : ascii -> bool) (s : string) : string :=
  match s with
  | EmptyString => EmptyString
  | String c s' => if p c then drop_while p s' else s
  end.

(** [urlparse] on the URLs [scheme://netloc/path?query#fragment] that have
    no [;], no tab or line break and no bracket: scheme up to the first
    colon, network location after [//], then fragment and query split off
    the path. *)
Definition plain_urlparse (url : string) : exc ParseResult :=
  let (scheme, rest) :=
    match split_on (Ascii.eqb ":") url with
    | (String c pre, Some rest) =>
        if is_alpha c && all_chars is_scheme_char pre
        then (lower (String c pre), rest) else (EmptyString, url)
    | _ => (EmptyString, url)
    end in
  let (netloc, rest) :=
    match drop_prefix "//" rest with
    | Some r => (take_while (fun c => negb (ends_netloc c)) r,
                 drop_while (fun c => negb (ends_netloc c)) r)
    | None => (EmptyString, rest)
    end in
  let (rest, fragment) := split_on (Ascii.eqb "#") rest in
  let (path, query) := split_on (Ascii.eqb "?") rest in
  Return {| scheme := scheme;
            netloc := netloc;
            path := path;
            params := EmptyString;
            query := match query with Some q => q | None => EmptyString end;
            fragment := match fragment with Some f => f | None => EmptyString end |}.

(** [parse_qs] on query strings without [+] and [%]: the pairs
    [name=value] between [&], those with an empty value left out. *)
Definition plain_parse_qs (qs : string) : dict (list string) :=
  fold_left (fun d name_value =>
               match split_on (Ascii.eqb "=") name_value with
               | (name, Some (String c v)) =>
                   dict_set name (get_default name [] d ++ [String c v]) d
               | _ => d
               end)
            (split_all (Ascii.eqb "&") qs) [].

Definition plain_urllib : Urllib :=
  {| urlparse := plain_urlparse; parse_qs := plain_parse_qs |}.

(** A video the sample service knows, with all its fields. *)
Definition video (video_id video_title published views : string) : item :=
  {| item_id := video_id;
     snippet := [("title", video_title); ("channelTitle", "Channel");
                 ("publishedAt", published)];
     statistics := Some [("viewCount", views); ("likeCount", "1");
                         ("commentCount", "0")];
     contentDetails := Some [("duration", "PT1M")] |}.

(** A service that answers every request alike: for each identifier of the
    comma-separated [id] parameter, in order, the videos of [known] that
    carry it. *)
Definition catalogue (known : list item) : remote_service :=
  fun _ id =>
    Response (flat_map (fun video_id =>
                          filter (fun it => String.eqb (item_id it) video_id) known)
                       (split_all (Ascii.eqb ",") id)).

(** The service [youtube], except that request [k] fails. *)
Definition failing_at (k status : nat) (content : string)
  (youtube : remote_service) : remote_service :=
  fun n id => if n =? k then HttpError status content else youtube n id.

(** The identifiers [v0], [v1], ..., [v(n-1)]. *)
Definition sample_ids (n : nat) : list string :=
  map (fun k => "v" +++ show k) (seq 0 n).

Definition sample_videos (n : nat) : list item :=
  map (fun video_id => video video_id "Title" "2025-01-01T00:00:00Z" "10")
      (sample_ids n).

(** A run without the key file. *)
Definition world_without_key : world :=
  {| fs := {| files := fun _ => None; tables := fun _ => Some [] |};
     build := fun _ => catalogue [];
     current_date := "20250101_000000" |}.

(** A run whose key file holds blanks only. *)
Definition world_blank_key : world :=
  {| fs := {| files := fun _ => Some ("  " +++ nl); tables := fun _ => Some [] |};
     build := fun _ => catalogue [];
     current_date := "20250101_000000" |}.

(** A run whose input has two rows for the same video. *)
Definition world_twins : world :=
  {| fs := {| files := fun _ => Some ("KEY" +++ nl);
              tables := fun _ =>
                Some [ [("Nickname", "first");
                        ("Link", "https://www.youtube.com/shorts/abc")];
                       [("Nickname", "second");
                        ("Link", "https://youtube.com/shorts/abc?feature=share")] ] |};
     build := fun _ =>
       catalogue [video "abc" "Twice" "2025-02-03T04:05:06Z" "7"];
     current_date := "20250101_000000" |}.

(** A run with three videos, the second of which the service does not
    know. *)
Definition world_three : world :=
  {| fs := {| files := fun _ => Some ("KEY" +++ nl);
              tables := fun _ =>
                Some [ [("Nickname", "Alice");
                        ("Link", "https://www.youtube.com/shorts/late")];
                       [("Nickname", "Bob");
                        ("Link", "https://www.youtube.com/shorts/gone")];
                       [("Nickname", "Carol");
                        ("Link", "https://www.youtube.com/shorts/early")] ] |};
     build := fun _ =>
       catalogue [video "late" "Late" "2025-03-01T00:00:00Z" "5";
                  video "early" "Early" "2024-12-31T23:59:59Z" "9"];
     current_date := "20250101_000000" |}.

(** The first and the last character of a string. *)
Definition first_char (s : string) : option ascii :=
  match s with EmptyString => None | String c _ => Some c end.

Fixpoint last_char (s : string) : option ascii :=
  match s with
  | EmptyString => None
  | String c EmptyString => Some c
  | String _ s' => last_char s'
  end.

(** A string that neither begins nor ends with a character satisfying [p]. *)
Definition trimmed (p : ascii -> bool) (s : string) : Prop :=
  (forall c, first_char s = Some c -> p c = false)
  /\ (forall c, last_char s = Some c -> p c = false).

(** What one round adds to the trace: its request and, when the request
    fails, the line that reports the failure. *)
Definition round_events (youtube : remote_service) (nb : nat * list string)
  : list event :=
  Request part (join "," (snd nb))
  :: match youtube (fst nb) (join "," (snd nb)) with
     | Response _ => []
     | HttpError status content =>
         [Print ("Error retrieving batch: " +++ api_error status content)]
     end.

(** The identifiers the loop of [main] appends for a list of videos none of
    which makes [extract_video_id] raise. *)
Definition resolved_ids {L : Urllib} (videos : list InputRecord) : list string :=
  flat_map (fun video =>
              match snd (extract_video_id (url video)) with
              | Return x =>
                  match truthy x with Some video_id => [video_id] | None => [] end
              | Raise _ => []
              end)
           videos.

(** The value of the first of [columns] that the row fills with a
    non-empty string. *)
Fixpoint first_filled (columns : list string) (row : dict string)
  : option string :=
  match columns with
  | [] => None
  | column :: columns' =>
      match dict_get column row with
      | Some (String c s) => Some (String c s)
      | _ => first_filled columns' row
      end
  end.

(** The warning of [main] for a URL without identifier. *)
Definition warning (u : string) : event :=
  Print ("Warning: Could not extract video ID from URL: " +++ u).

(** The warnings of the loop of [main] for a list of videos: one for each
    video whose URL gives no identifier, in the order of the videos. *)
Definition warnings {L : Urllib} (videos : list InputRecord) : list event :=
  flat_map (fun video =>
              match snd (extract_video_id (url video)) with
              | Return x =>
                  match truthy x with
                  | Some _ => []
                  | None => [warning (url video)]
                  end
              | Raise _ => []
              end)
           videos.

(** The rows of a report whose [upload_date] is [d], in their order. *)
Definition rows_dated (d : string) (rows : list ReportRow) : list ReportRow :=
  filter (fun r => String.eqb (r_upload_date r) d) rows.

(** A run whose input table is missing. *)
Definition world_without_table : world :=
  {| fs := {| files := fun _ => Some ("KEY" +++ nl); tables := fun _ => None |};
     build := fun _ => catalogue [];
     current_date := "20250101_000000" |}.

(** A run none of whose rows has a video URL; the second row has its link
    in the column [url] and no nickname. *)
Definition world_unresolvable : world :=
  {| fs := {| files := fun _ => Some ("KEY" +++ nl);
              tables := fun _ =>
                Some [ [("nickname", "Dave"); ("Link", "not-a-youtube-link")];
                       [("Link", ""); ("url", " https://example.org/video ")];
                       [("Nickname", "Erin"); ("Link", "")] ] |};
     build := fun _ => catalogue [];
     current_date := "20250101_000000" |}.

(* ====================================================================== *)
(** * Responses as JSON *)
(* ====================================================================== *)

(** An [item] above is an element of [response['items']] that follows the
    schema of the API: it has its [id] and its [snippet], and its fields are
    strings.  As JSON, an element may lack a key, and a field may hold
    [null], which Python reads as [None].  The definitions of this section
    follow [get_video_metrics] on such responses: [None] for a key is its
    absence, [None] for a field is [null]; a sub-dictionary that is present
    is a dictionary. *)
Record json_item := {
  json_id : option string;
  json_snippet : option (dict (option string));
  json_statistics : option (dict (option string));
  json_contentDetails : option (dict (option string))
}.

Inductive json_response :=
| JsonResponse (items : list json_item)
| JsonHttpError (status : nat) (content : string).

Definition json_service : Type := nat -> string -> json_response.

(** A metrics dictionary whose values are strings or [None]. *)
Record json_outcome := {
  j_title : option string;
  j_channel_name : option string;
  j_upload_date : option string;
  j_view_count : option string;
  j_like_count : option string;
  j_comment_count : option string;
  j_duration : option string;
  j_error : option string
}.

(** The body of the loop over the items: [item['id']] and [item['snippet']]
    raise [KeyError] for a missing key; [.get(key, default)] yields the
    default for a missing key only. *)
Definition json_found (it : json_item) : exc (string * json_outcome) :=
  match json_id it with
  | None => Raise KeyError
  | Some video_id =>
      match json_snippet it with
      | None => Raise KeyError
      | Some snippet =>
          let statistics :=
            match json_statistics it with Some d => d | None => [] end in
          let content_details :=
            match json_contentDetails it with Some d => d | None => [] end in
          Return
            (video_id,
             {| j_title := get_default "title" (Some "N/A") snippet;
                j_channel_name := get_default "channelTitle" (Some "N/A") snippet;
                j_upload_date := get_default "publishedAt" (Some "N/A") snippet;
                j_view_count := get_default "viewCount" (Some "0") statistics;
                j_like_count := get_default "likeCount" (Some "0") statistics;
                j_comment_count := get_default "commentCount" (Some "0") statistics;
                j_duration := get_default "duration" (Some "N/A") content_details;
                j_error := None |})
      end
  end.

Definition json_placeholder (err : string) : json_outcome :=
  {| j_title := Some "N/A";
     j_channel_name := Some "N/A";
     j_upload_date := Some "N/A";
     j_view_count := Some "0";
     j_like_count := Some "0";
     j_comment_count := Some "0";
     j_duration := Some "N/A";
     j_error := Some err |}.

(** The loop over [response.get('items', [])]; an exception ends it. *)
Fixpoint json_store_items (items : list json_item)
  (results : dict json_outcome) : exc (dict json_outcome) :=
  match items with
  | [] => Return results
  | it :: items' =>
      match json_found it with
      | Raise e => Raise e
      | Return (video_id, o) =>
          json_store_items items' (dict_set video_id o results)
      end
  end.

(** [{item['id'] for item in response.get('items', [])}]. *)
Definition json_ids (items : list json_item) : list string :=
  flat_map (fun it => match json_id it with Some i => [i] | None => [] end)
           items.

Definition json_store_missing (batch returned_ids : list string)
  (results : dict json_outcome) : dict json_outcome :=
  fold_left (fun results video_id =>
               if mem video_id returned_ids then results
               else dict_set video_id (json_placeholder not_found) results)
            batch results.

Definition json_store_failed (batch : list string) (error_message : string)
  (results : dict json_outcome) : dict json_outcome :=
  fold_left (fun results video_id =>
               if dict_mem video_id results then results
               else dict_set video_id (json_placeholder error_message) results)
            batch results.

(** One round of the loop on a JSON response; an exception other than
    [HttpError] leaves the [try] statement and the function. *)
Definition json_round (youtube : json_service) (n : nat) (batch : list string)
  (results : dict json_outcome) : io (dict json_outcome) :=
  let id := join "," batch in
  emit (Request part id) ;;;
  match youtube n id with
  | JsonResponse items =>
      match json_store_items items results with
      | Return results' =>
          ret (json_store_missing batch (json_ids items) results')
      | Raise e => raise e
      end
  | JsonHttpError status content =>
      print ("Error retrieving batch: " +++ api_error status content) ;;;
      ret (json_store_failed batch (api_error status content) results)
  end.

Fixpoint json_rounds (youtube : json_service) (n : nat)
  (bs : list (list string)) (results : dict json_outcome)
  : io (dict json_outcome) :=
  match bs with
  | [] => ret results
  | batch :: bs' =>
      results' <- json_round youtube n batch results ;;
      json_rounds youtube (S n) bs' results'
  end.

(** [get_video_metrics] on JSON responses. *)
Definition json_get_video_metrics (build : string -> json_service)
  (video_ids : list string) (api_key : string) : io (dict json_outcome) :=
  let youtube := build api_key in
  json_rounds youtube 0 (batches video_ids) [].

(** An item that has the two keys the loop reads with [item[...]]. *)
Definition has_keys (it : json_item) : Prop :=
  json_id it <> None /\ json_snippet it <> None.

(** An item none of whose fields is [null]. *)
Definition without_null (it : json_item) : Prop :=
  forall d key,
    json_snippet it = Some d \/ json_statistics it = Some d
    \/ json_contentDetails it = Some d ->
    dict_get key d <> Some None.

(** An outcome whose seven data fields are strings, none of them [None]. *)
Definition populated (o : json_outcome) : Prop :=
  j_title o <> None /\ j_channel_name o <> None /\ j_upload_date o <> None
  /\ j_view_count o <> None /\ j_like_count o <> None
  /\ j_comment_count o <> None /\ j_duration o <> None.

(** An outcome whose seven data fields are what the item holds for them,
    the placeholder standing in for a key that is absent. *)
Definition built_from (it : json_item) (o : json_outcome) : Prop :=
  exists snippet,
    json_snippet it = Some snippet
    /\ j_title o = get_default "title" (Some "N/A") snippet
    /\ j_channel_name o = get_default "channelTitle" (Some "N/A") snippet
    /\ j_upload_date o = get_default "publishedAt" (Some "N/A") snippet
    /\ j_view_count o
       = get_default "viewCount" (Some "0")
           (match json_statistics it with Some d => d | None => [] end)
    /\ j_like_count o
       = get_default "likeCount" (Some "0")
           (match json_statistics it with Some d => d | None => [] end)
    /\ j_comment_count o
       = get_default "commentCount" (Some "0")
           (match json_statistics it with Some d => d | None => [] end)
    /\ j_duration o
       = get_default "duration" (Some "N/A")
           (match json_contentDetails it with Some d => d | None => [] end).

(** An item of some response of the service. *)
Definition answered (youtube : json_service) (it : json_item) : Prop :=
  exists n id items, youtube n id = JsonResponse items /\ In it items.

(** An outcome without error that is built from an item of a response, or
    the placeholder outcome of a non-empty error. *)
Definition json_classified (youtube : json_service) (o : json_outcome) : Prop :=
  match j_error o with
  | None => exists it video_id,
              answered youtube it /\ json_found it = Return (video_id, o)
  | Some e => e <> "" /\ o = json_placeholder e
  end.

(** An item with all its fields, as JSON. *)
Definition json_video (video_id video_title published views : string)
  : json_item :=
  {| json_id := Some video_id;
     json_snippet := Some [("title", Some video_title);
                           ("channelTitle", Some "Channel");
                           ("publishedAt", Some published)];
     json_statistics := Some [("viewCount", Some views);
                              ("likeCount", Some "1");
                              ("commentCount", Some "0")];
     json_contentDetails := Some [("duration", Some "PT1M")] |}.

(** An item whose title is [null] and that has no statistics. *)
Definition json_untitled (video_id : string) : json_item :=
  {| json_id := Some video_id;
     json_snippet := Some [("title", None);
                           ("publishedAt", Some "2025-01-01T00:00:00Z")];
     json_statistics := None;
     json_contentDetails := Some [("duration", Some "PT1M")] |}.


(** A service that answers every request with the same items. *)
Definition json_always (items : list json_item) : json_service :=
  fun _ _ => JsonResponse items.

(* ====================================================================== *)
(** * Properties of the string functions *)
(* ====================================================================== *)

Lemma shorts_match_eq (url : string) :
  shorts_match url =
  match match_shorts url with
  | Some group1 => Some group1
  | None =>
      match url with
      | EmptyString => None
      | String _ rest => shorts_match rest
      end
  end.
Proof. destruct url; reflexivity. Qed.

Lemma str_find_eq (pat s : string) :
  str_find pat s =
  match drop_prefix pat s with
  | Some _ => Some 0
  | None =>
      match s with
      | EmptyString => None
      | String _ s' => option_map S (str_find pat s')
      end
  end.
Proof. destruct s; reflexivity. Qed.

Lemma contains_eq (pat s : string) :
  contains pat s =
  match drop_prefix pat s with
  | Some _ => true
  | None =>
      match s with
      | EmptyString => false
      | String _ s' => contains pat s'
      end
  end.
Proof. destruct s; reflexivity. Qed.

Lemma is_empty_true (s : string) : is_empty s = true <-> s = "".
Proof. destruct s; simpl; split; congruence. Qed.

Lemma is_empty_false (s : string) : is_empty s = false <-> s <> "".
Proof. destruct s; simpl; split; congruence. Qed.

Lemma drop_prefix_app (pat s : string) : drop_prefix pat (pat +++ s) = Some s.
Proof.
  induction pat as [|a pat IH]; simpl.
  - destruct s; reflexivity.
  - now rewrite Ascii.eqb_refl.
Qed.

Lemma take_while_app (p : ascii -> bool) (g rest : string) :
  all_chars p g = true -> take_while p rest = "" ->
  take_while p (g +++ rest) = g.
Proof.
  induction g as [|c g IH]; simpl; intros Hg Hrest.
  - exact Hrest.
  - apply andb_true_iff in Hg. destruct Hg as [Hc Hg].
    rewrite Hc. f_equal. now apply IH.
Qed.

Lemma contains_app (pat pre post : string) :
  contains pat (pre +++ pat +++ post) = true.
Proof.
  induction pre as [|c pre IH].
  - simpl. rewrite contains_eq. now rewrite drop_prefix_app.
  - rewrite contains_eq. destruct (drop_prefix pat _); [reflexivity|].
    simpl. exact IH.
Qed.

Lemma match_shorts_nonempty (s g : string) :
  match_shorts s = Some g -> g <> "".
Proof.
  unfold match_shorts. destruct (drop_prefix "/shorts/" s) as [rest|]; [|discriminate].
  destruct (is_empty (take_while is_id_char rest)) eqn:E; [discriminate|].
  intros H. inversion H. subst. now apply is_empty_false.
Qed.

Lemma shorts_match_nonempty (url g : string) :
  shorts_match url = Some g -> g <> "".
Proof.
  induction url as [|c url IH]; rewrite shorts_match_eq.
  - destruct (match_shorts "") eqn:E; [|discriminate].
    intros H. inversion H. subst. eapply match_shorts_nonempty, E.
  - destruct (match_shorts (String c url)) eqn:E.
    + intros H. inversion H. subst. eapply match_shorts_nonempty, E.
    + exact IH.
Qed.

(** The group of a match that starts here: the run of identifier characters
    after the literal, when that run is not empty. *)
Lemma match_shorts_here (g rest : string) :
  g <> "" -> all_chars is_id_char g = true ->
  take_while is_id_char rest = "" ->
  match_shorts ("/shorts/" +++ g +++ rest) = Some g.
Proof.
  intros Hne Hg Hrest. unfold match_shorts.
  rewrite drop_prefix_app, take_while_app by assumption.
  apply is_empty_false in Hne. now rewrite Hne.
Qed.

(** The search skips the text before the first occurrence of the literal. *)
Lemma shorts_match_skip (pre s : string) :
  str_find "/shorts/" (pre +++ s) = Some (String.length pre) ->
  shorts_match (pre +++ s) = shorts_match s.
Proof.
  induction pre as [|c pre IH]; intros Hfind.
  - reflexivity.
  - change (String c pre +++ s) with (String c (pre +++ s)) in *.
    rewrite str_find_eq in Hfind. rewrite shorts_match_eq.
    unfold match_shorts.
    destruct (drop_prefix "/shorts/" (String c (pre +++ s))); [discriminate|].
    apply IH.
    destruct (str_find "/shorts/" (pre +++ s)); simpl in Hfind; congruence.
Qed.

(** A literal followed by an identifier character always gives a match. *)
Lemma shorts_match_some (pre post : string) (c : ascii) :
  is_id_char c = true ->
  exists g, shorts_match (pre +++ "/shorts/" +++ String c post) = Some g.
Proof.
  intros Hc. induction pre as [|a pre IH].
  - exists (String c (take_while is_id_char post)).
    change ("" +++ "/shorts/" +++ String c post)
      with ("/shorts/" +++ String c post).
    rewrite shorts_match_eq. unfold match_shorts.
    rewrite drop_prefix_app. simpl. now rewrite Hc.
  - change (String a pre +++ "/shorts/" +++ String c post)
      with (String a (pre +++ "/shorts/" +++ String c post)).
    rewrite shorts_match_eq.
    destruct (match_shorts _) as [g|]; [now exists g | exact IH].
Qed.

(* ====================================================================== *)
(** * Properties of [extract_video_id] *)
(* ====================================================================== *)

(** C3.  [extract_video_id] tries the shorts pattern, then [youtu.be/], then
    [youtube.com/watch], and the first rule that applies gives the result;
    on a URL [pre/shorts/<id>rest], where this is the first occurrence of
    [/shorts/], [<id>] is a non-empty run of characters of
    [[A-Za-z0-9_-]] and [rest] does not continue that run, the result is
    exactly [<id>]. *)
Theorem extract_video_id_priority {L : Urllib} (url : string) :
  (forall g, shorts_match url = Some g -> extract_video_id url = ret (Some g))
  /\ (shorts_match url = None -> contains "youtu.be/" url = true ->
      extract_video_id url = youtu_be_rule url)
  /\ (shorts_match url = None -> contains "youtu.be/" url = false ->
      contains "youtube.com/watch" url = true ->
      extract_video_id url = watch_rule url)
  /\ (shorts_match url = None -> contains "youtu.be/" url = false ->
      contains "youtube.com/watch" url = false ->
      extract_video_id url = ret None)
  /\ (forall pre g rest,
        url = pre +++ "/shorts/" +++ g +++ rest ->
        str_find "/shorts/" url = Some (String.length pre) ->
        g <> "" -> all_chars is_id_char g = true ->
        take_while is_id_char rest = "" ->
        extract_video_id url = ret (Some g)).
Proof.
  unfold extract_video_id. repeat split.
  - intros g Hg. now rewrite Hg.
  - intros Hs Hy. now rewrite Hs, Hy.
  - intros Hs Hy Hw. now rewrite Hs, Hy, Hw.
  - intros Hs Hy Hw. now rewrite Hs, Hy, Hw.
  - intros pre g rest Hurl Hfind Hne Hg Hrest. subst url.
    rewrite (shorts_match_skip pre _ Hfind), shorts_match_eq.
    now rewrite match_shorts_here.
Qed.

Lemma extract_video_id_priority_witness :
  extract_video_id (L := plain_urllib)
    "https://www.youtube.com/shorts/abc_-12?feature=share"
  = ret (Some "abc_-12")
  /\ extract_video_id (L := plain_urllib) "https://youtu.be/xyz789"
     = youtu_be_rule (L := plain_urllib) "https://youtu.be/xyz789"
  /\ extract_video_id (L := plain_urllib) "https://www.youtube.com/watch?v=abc123"
     = watch_rule (L := plain_urllib) "https://www.youtube.com/watch?v=abc123"
  /\ extract_video_id (L := plain_urllib) "not-a-youtube-link" = ret None
  /\ extract_video_id (L := plain_urllib) "https://youtu.be/shorts/abc"
     = ret (Some "abc").
Proof.
  split; [|split; [|split; [|split]]].
  - apply (proj2 (proj2 (proj2 (proj2
      (extract_video_id_priority (L := plain_urllib) _))))
      "https://www.youtube.com" "abc_-12" "?feature=share");
      [reflexivity | reflexivity | discriminate | reflexivity | reflexivity].
  - apply (proj1 (proj2 (extract_video_id_priority (L := plain_urllib) _)));
      reflexivity.
  - apply (proj1 (proj2 (proj2 (extract_video_id_priority (L := plain_urllib) _))));
      reflexivity.
  - apply (proj1 (proj2 (proj2 (proj2
      (extract_video_id_priority (L := plain_urllib) _)))));
      reflexivity.
  - apply (proj1 (extract_video_id_priority (L := plain_urllib) _)).
    reflexivity.
Defined.

(** C10.  Which rule applies depends on substrings of the URL only, whatever
    stands before and after them: a string that contains [/shorts/] followed
    by a character of [[A-Za-z0-9_-]] yields a non-empty identifier; a
    string that contains [youtu.be/] goes through the [youtu.be] rule and a
    string that contains [youtube.com/watch] through the watch rule, as soon
    as no rule of higher priority applies. *)
Theorem rule_selection_by_containment {L : Urllib} (pre post : string) :
  (forall c, is_id_char c = true ->
     exists g, g <> ""
       /\ extract_video_id (pre +++ "/shorts/" +++ String c post) = ret (Some g))
  /\ (shorts_match (pre +++ "youtu.be/" +++ post) = None ->
      extract_video_id (pre +++ "youtu.be/" +++ post)
      = youtu_be_rule (pre +++ "youtu.be/" +++ post))
  /\ (shorts_match (pre +++ "youtube.com/watch" +++ post) = None ->
      contains "youtu.be/" (pre +++ "youtube.com/watch" +++ post) = false ->
      extract_video_id (pre +++ "youtube.com/watch" +++ post)
      = watch_rule (pre +++ "youtube.com/watch" +++ post)).
Proof.
  unfold extract_video_id. repeat split.
  - intros c Hc. destruct (shorts_match_some pre post c Hc) as [g Hg].
    exists g. split; [eapply shorts_match_nonempty, Hg | now rewrite Hg].
  - intros Hs. now rewrite Hs, contains_app.
  - intros Hs Hy. now rewrite Hs, Hy, contains_app.
Qed.

Lemma rule_selection_by_containment_witness :
  (exists g, g <> ""
     /\ extract_video_id (L := plain_urllib)
          ("ftp://example.org/a b" +++ "/shorts/" +++ String "Z" "!!") = ret (Some g))
  /\ extract_video_id (L := plain_urllib)
       ("https://example.org/?next=" +++ "youtu.be/" +++ "x")
     = youtu_be_rule (L := plain_urllib)
         ("https://example.org/?next=" +++ "youtu.be/" +++ "x")
  /\ extract_video_id (L := plain_urllib)
       ("see " +++ "youtube.com/watch" +++ "ing")
     = watch_rule (L := plain_urllib) ("see " +++ "youtube.com/watch" +++ "ing").
Proof.
  split; [|split].
  - apply (proj1 (rule_selection_by_containment (L := plain_urllib)
                    "ftp://example.org/a b" "!!")).
    reflexivity.
  - apply (proj1 (proj2 (rule_selection_by_containment (L := plain_urllib)
                           "https://example.org/?next=" "x"))).
    reflexivity.
  - apply (proj2 (proj2 (rule_selection_by_containment (L := plain_urllib)
                           "see " "ing"))); reflexivity.
Defined.

(* ====================================================================== *)
(** * Properties of dictionaries *)
(* ====================================================================== *)

Lemma mem_In (x : string) (l : list string) : mem x l = true <-> In x l.
Proof.
  unfold mem. rewrite existsb_exists. split.
  - intros [y [Hy Heq]]. apply String.eqb_eq in Heq. now subst.
  - intros H. exists x. split; [assumption | apply String.eqb_refl].
Qed.

Lemma mem_not_In (x : string) (l : list string) : mem x l = false <-> ~ In x l.
Proof.
  rewrite <- mem_In. destruct (mem x l); split; congruence.
Qed.

Lemma mem_app (x : string) (l1 l2 : list string) :
  mem x (l1 ++ l2) = mem x l1 || mem x l2.
Proof. apply existsb_app. Qed.

Section Dict.
Context {V : Type}.
Implicit Types (d : dict V) (k : string) (v : V).

Lemma dict_get_set k' k v d :
  dict_get k' (dict_set k v d)
  = if String.eqb k' k then Some v else dict_get k' d.
Proof.
  induction d as [|[k0 v0] d IH]; simpl.
  - reflexivity.
  - destruct (String.eqb k k0) eqn:E; simpl.
    + apply String.eqb_eq in E. subst k0.
      destruct (String.eqb k' k); reflexivity.
    + destruct (String.eqb k' k0) eqn:E0.
      * apply String.eqb_eq in E0. subst k0.
        rewrite String.eqb_sym in E. now rewrite E.
      * exact IH.
Qed.

Lemma dict_mem_set k' k v d :
  dict_mem k' (dict_set k v d) = String.eqb k' k || dict_mem k' d.
Proof.
  unfold dict_mem. rewrite dict_get_set. now destruct (String.eqb k' k).
Qed.

Lemma dict_mem_keys k d : dict_mem k d = mem k (dict_keys d).
Proof.
  unfold dict_mem. induction d as [|[k0 v0] d IH]; simpl.
  - reflexivity.
  - destruct (String.eqb k k0); [reflexivity | exact IH].
Qed.

Lemma dict_keys_set k v d :
  dict_keys (dict_set k v d)
  = if dict_mem k d then dict_keys d else dict_keys d ++ [k].
Proof.
  unfold dict_mem. induction d as [|[k0 v0] d IH]; simpl.
  - reflexivity.
  - destruct (String.eqb k k0) eqn:E; simpl.
    + reflexivity.
    + rewrite IH. now destruct (dict_get k d).
Qed.

Lemma dict_set_NoDup k v d :
  NoDup (dict_keys d) -> NoDup (dict_keys (dict_set k v d)).
Proof.
  intros Hd. rewrite dict_keys_set. destruct (dict_mem k d) eqn:E.
  - assumption.
  - rewrite dict_mem_keys in E. apply mem_not_In in E.
    apply NoDup_app; [assumption | repeat constructor; auto |].
    intros a Ha [Heq|[]]. now subst.
Qed.

Lemma dict_set_length k v d :
  length (dict_set k v d) = if dict_mem k d then length d else S (length d).
Proof.
  unfold dict_mem. induction d as [|[k0 v0] d IH]; simpl.
  - reflexivity.
  - destruct (String.eqb k k0); simpl; [reflexivity|].
    rewrite IH. now destruct (dict_get k d).
Qed.

Lemma dict_get_In k v d : dict_get k d = Some v -> In (k, v) d.
Proof.
  induction d as [|[k0 v0] d IH]; simpl; [discriminate|].
  destruct (String.eqb k k0) eqn:E.
  - apply String.eqb_eq in E. intros H. inversion H. subst. now left.
  - intros H. right. now apply IH.
Qed.

Lemma dict_In_get k v d :
  NoDup (dict_keys d) -> In (k, v) d -> dict_get k d = Some v.
Proof.
  induction d as [|[k0 v0] d IH]; simpl; [tauto|].
  intros Hd [Heq|Hin].
  - inversion Heq. subst. now rewrite String.eqb_refl.
  - inversion Hd as [|? ? Hnot Hd']. subst.
    destruct (String.eqb k k0) eqn:E.
    + apply String.eqb_eq in E. subst k0. exfalso. apply Hnot.
      unfold dict_keys. change k with (fst (k, v)). now apply in_map.
    + now apply IH.
Qed.

(** A property of the values that every stored value has is kept. *)
Lemma dict_set_Forall (P : V -> Prop) k v d :
  P v -> Forall (fun e => P (snd e)) d ->
  Forall (fun e => P (snd e)) (dict_set k v d).
Proof.
  intros Hv. induction d as [|[k0 v0] d IH]; simpl; intros Hd.
  - repeat constructor. exact Hv.
  - inversion Hd as [|? ? H0 Hd']. subst.
    destruct (String.eqb k k0); constructor; auto.
Qed.
End Dict.

(** A loop whose body keeps an invariant keeps it. *)
Lemma fold_left_invariant {A B : Type} (P : A -> Prop) (f : A -> B -> A)
  (l : list B) (a : A) :
  (forall a b, P a -> P (f a b)) -> P a -> P (fold_left f l a).
Proof.
  intros Hf. revert a. induction l as [|b l IH]; simpl; auto.
Qed.

(* ====================================================================== *)
(** * The three loops that store outcomes *)
(* ====================================================================== *)

Lemma last_item_snoc (video_id : string) (items : list item) (it : item) :
  last_item video_id (items ++ [it])
  = if String.eqb video_id (item_id it) then Some it
    else last_item video_id items.
Proof. unfold last_item. rewrite rev_app_distr. reflexivity. Qed.

Lemma last_item_none (video_id : string) (items : list item) :
  last_item video_id items = None <-> mem video_id (map item_id items) = false.
Proof.
  induction items as [|it items IH] using rev_ind.
  - split; reflexivity.
  - rewrite last_item_snoc, map_app, mem_app. simpl.
    destruct (String.eqb video_id (item_id it)).
    + rewrite orb_true_r. split; discriminate.
    + rewrite !orb_false_r. exact IH.
Qed.

Lemma last_item_some (video_id : string) (items : list item) (it : item) :
  last_item video_id items = Some it -> In it items /\ item_id it = video_id.
Proof.
  unfold last_item. intros H. apply find_some in H. destruct H as [Hin Heq].
  apply in_rev in Hin. apply String.eqb_eq in Heq. auto.
Qed.

(** After the loop over the items, an identifier holds the outcome of the
    last item that carries it. *)
Lemma store_items_get (video_id : string) (items : list item)
  (results : dict MetricsOutcome) :
  dict_get video_id (store_items items results)
  = match last_item video_id items with
    | Some it => Some (found it)
    | None => dict_get video_id results
    end.
Proof.
  unfold store_items. induction items as [|it items IH] using rev_ind.
  - reflexivity.
  - rewrite fold_left_app, last_item_snoc. simpl.
    rewrite dict_get_set. destruct (String.eqb video_id (item_id it)); auto.
Qed.

(** After the loop over the batch, the identifiers of the batch that were
    not returned hold the not-found outcome. *)
Lemma store_missing_get (video_id : string) (batch returned_ids : list string)
  (results : dict MetricsOutcome) :
  dict_get video_id (store_missing batch returned_ids results)
  = if mem video_id batch && negb (mem video_id returned_ids)
    then Some (placeholder not_found)
    else dict_get video_id results.
Proof.
  unfold store_missing. revert results.
  induction batch as [|x batch IH]; intros results; simpl.
  - reflexivity.
  - rewrite IH. destruct (String.eqb video_id x) eqn:E.
    + apply String.eqb_eq in E. subst x. simpl.
      destruct (mem video_id returned_ids); simpl.
      * now rewrite andb_false_r.
      * rewrite dict_get_set, String.eqb_refl.
        now destruct (mem video_id batch).
    + simpl. destruct (mem video_id batch && negb (mem video_id returned_ids));
        [reflexivity|].
      destruct (mem x returned_ids); [reflexivity|].
      now rewrite dict_get_set, E.
Qed.

(** After the loop of the [except] branch, an identifier that was present
    keeps its outcome, and an absent identifier of the batch holds the error
    outcome. *)
Lemma store_failed_get (video_id : string) (batch : list string)
  (error_message : string) (results : dict MetricsOutcome) :
  dict_get video_id (store_failed batch error_message results)
  = match dict_get video_id results with
    | Some o => Some o
    | None =>
        if mem video_id batch then Some (placeholder error_message) else None
    end.
Proof.
  unfold store_failed. revert results.
  induction batch as [|x batch IH]; intros results; simpl.
  - now destruct (dict_get video_id results).
  - rewrite IH. unfold dict_mem.
    destruct (String.eqb video_id x) eqn:E.
    + apply String.eqb_eq in E. subst x. simpl.
      destruct (dict_get video_id results) eqn:G.
      * now rewrite G.
      * now rewrite dict_get_set, String.eqb_refl.
    + simpl. destruct (dict_get x results) eqn:G; [reflexivity|].
      now rewrite dict_get_set, E.
Qed.

(** What one round stores for an identifier. *)
Lemma process_batch_get (video_id : string) (r : response)
  (batch : list string) (results : dict MetricsOutcome) :
  dict_get video_id (process_batch r batch results)
  = match r with
    | Response items =>
        match last_item video_id items with
        | Some it => Some (found it)
        | None =>
            if mem video_id batch then Some (placeholder not_found)
            else dict_get video_id results
        end
    | HttpError status content =>
        match dict_get video_id results with
        | Some o => Some o
        | None =>
            if mem video_id batch
            then Some (placeholder (api_error status content)) else None
        end
    end.
Proof.
  destruct r as [items|status content]; simpl.
  - rewrite store_missing_get, store_items_get.
    destruct (last_item video_id items) as [it|] eqn:E.
    + assert (H : mem video_id (map item_id items) = true).
      { destruct (mem video_id (map item_id items)) eqn:M; [reflexivity|].
        apply last_item_none in M. congruence. }
      now rewrite H, andb_false_r.
    + apply last_item_none in E. rewrite E, andb_true_r. reflexivity.
  - apply store_failed_get.
Qed.

(** The keys after one round. *)
Lemma process_batch_mem (video_id : string) (r : response)
  (batch : list string) (results : dict MetricsOutcome) :
  dict_mem video_id (process_batch r batch results)
  = dict_mem video_id results || mem video_id batch
    || match r with
       | Response items => mem video_id (map item_id items)
       | HttpError _ _ => false
       end.
Proof.
  unfold dict_mem. rewrite process_batch_get.
  destruct r as [items|status content].
  - destruct (last_item video_id items) as [it|] eqn:E.
    + destruct (mem video_id (map item_id items)) eqn:M.
      * now rewrite orb_true_r.
      * apply last_item_none in M. congruence.
    + apply last_item_none in E. rewrite E, orb_false_r.
      destruct (mem video_id batch); [now rewrite orb_true_r|].
      now rewrite orb_false_r.
  - rewrite orb_false_r. destruct (dict_get video_id results);
      [reflexivity | now destruct (mem video_id batch)].
Qed.

Lemma process_batch_NoDup (r : response) (batch : list string)
  (results : dict MetricsOutcome) :
  NoDup (dict_keys results) ->
  NoDup (dict_keys (process_batch r batch results)).
Proof.
  intros H. pose (P := fun d : dict MetricsOutcome => NoDup (dict_keys d)).
  destruct r as [items|status content];
    unfold process_batch, store_missing, store_items, store_failed.
  - apply (fold_left_invariant P).
    + intros a b Ha. destruct (mem b (map item_id items));
        [assumption | now apply dict_set_NoDup].
    + apply (fold_left_invariant P); [|assumption].
      intros a b Ha. now apply dict_set_NoDup.
  - apply (fold_left_invariant P); [|assumption].
    intros a b Ha. destruct (dict_mem b a);
      [assumption | now apply dict_set_NoDup].
Qed.

(* ====================================================================== *)
(** * The batches *)
(* ====================================================================== *)



Lemma concat_slices {A : Type} (l : list A) (step fuel i : nat) :
  0 < step -> length l - i <= fuel ->
  concat (map (fun i => slice l i (i + step))
              (range_from fuel i (length l) step))
  = skipn i l.
Proof.
  intros Hstep. revert i. induction fuel as [|fuel IH]; simpl; intros i Hfuel.
  - symmetry. apply skipn_all2. lia.
  - destruct (i <? length l) eqn:E.
    + simpl. rewrite IH by lia. unfold slice.
      replace (i + step - i) with step by lia.
      replace (i + step) with (step + i) by lia.
      rewrite <- (skipn_skipn step i l). apply firstn_skipn.
    + apply Nat.ltb_ge in E. symmetry. now apply skipn_all2.
Qed.

(** The batches, one after the other, are the input list. *)
Lemma batches_concat (video_ids : list string) :
  concat (batches video_ids) = video_ids.
Proof.
  unfold batches, range, batch_size.
  rewrite concat_slices by lia. reflexivity.
Qed.



Lemma batches_split (video_ids batch : list string) (k : nat) :
  nth_error (batches video_ids) k = Some batch ->
  batches video_ids
  = firstn k (batches video_ids) ++ batch :: skipn (S k) (batches video_ids)
  /\ length (firstn k (batches video_ids)) = k.
Proof.
  intros H. split.
  - symmetry. now apply firstn_skipn_middle.
  - apply firstn_length_le. apply Nat.lt_le_incl.
    apply nth_error_Some. congruence.
Qed.

(* ====================================================================== *)
(** * The loop of [get_video_metrics] *)
(* ====================================================================== *)

Lemma bind_Return {A B : Type} (ev : list event) (a : A) (f : A -> io B) :
  bind (ev, Return a) f = (ev ++ fst (f a), snd (f a)).
Proof. simpl. now destruct (f a). Qed.

Lemma requests_of_app (ev1 ev2 : list event) :
  requests_of (ev1 ++ ev2) = requests_of ev1 ++ requests_of ev2.
Proof.
  induction ev1 as [|e ev1 IH]; simpl; [reflexivity|].
  destruct e; simpl; now rewrite IH.
Qed.

Lemma writes_of_app (ev1 ev2 : list event) :
  writes_of (ev1 ++ ev2) = writes_of ev1 ++ writes_of ev2.
Proof.
  induction ev1 as [|e ev1 IH]; simpl; [reflexivity|].
  destruct e; simpl; now rewrite IH.
Qed.

(** One round makes one request, writes no file and returns. *)
Lemma round_spec (youtube : remote_service) (n : nat) (batch : list string)
  (results : dict MetricsOutcome) :
  snd (round youtube n batch results)
  = Return (process_batch (youtube n (join "," batch)) batch results)
  /\ requests_of (fst (round youtube n batch results)) = [join "," batch]
  /\ writes_of (fst (round youtube n batch results)) = [].
Proof.
  unfold round. destruct (youtube n (join "," batch)); simpl; auto.
Qed.

(** The loop returns the value [results_from] computes, after one request
    per batch, in the order of the batches. *)
Lemma rounds_spec (youtube : remote_service) (bs : list (list string)) :
  forall (n : nat) (results : dict MetricsOutcome),
    snd (rounds youtube n bs results)
    = Return (results_from youtube n bs results)
    /\ requests_of (fst (rounds youtube n bs results)) = map (join ",") bs
    /\ writes_of (fst (rounds youtube n bs results)) = [].
Proof.
  induction bs as [|batch bs IH]; intros n results; simpl.
  - auto.
  - destruct (round_spec youtube n batch results) as [Hs [Hr Hw]].
    destruct (round youtube n batch results) as [ev r]. simpl in Hs, Hr, Hw.
    subst r. rewrite bind_Return. simpl.
    destruct (IH (S n) (process_batch (youtube n (join "," batch)) batch results))
      as [Hs' [Hr' Hw']].
    rewrite requests_of_app, writes_of_app, Hr, Hw, Hr', Hw'. auto.
Qed.

Lemma results_from_app (youtube : remote_service) (bs1 bs2 : list (list string)) :
  forall (n : nat) (results : dict MetricsOutcome),
    results_from youtube n (bs1 ++ bs2) results
    = results_from youtube (n + length bs1) bs2
        (results_from youtube n bs1 results).
Proof.
  induction bs1 as [|b bs1 IH]; intros n results; simpl.
  - now rewrite Nat.add_0_r.
  - rewrite IH. f_equal. lia.
Qed.

(** The state after round [k] is what round [k] makes of the state before
    it. *)
Lemma results_after_S (youtube : remote_service) (video_ids batch : list string)
  (k : nat) :
  nth_error (batches video_ids) k = Some batch ->
  results_after youtube video_ids (S k)
  = process_batch (youtube k (join "," batch)) batch
      (results_after youtube video_ids k).
Proof.
  intros H. unfold results_after.
  destruct (batches_split _ _ _ H) as [Hsplit Hlen].
  rewrite Hsplit at 1.
  replace (S k) with (length (firstn k (batches video_ids)) + 1) by lia.
  rewrite firstn_app_2. simpl.
  rewrite results_from_app. simpl. now rewrite Hlen.
Qed.

(** The state after all rounds. *)
Lemma results_after_all (youtube : remote_service) (video_ids : list string) :
  results_after youtube video_ids (length (batches video_ids))
  = results_from youtube 0 (batches video_ids) [].
Proof. unfold results_after. now rewrite firstn_all. Qed.

(** [get_video_metrics] returns, and returns the state after all rounds. *)
Lemma get_video_metrics_returns (build : string -> remote_service)
  (video_ids : list string) (api_key : string) :
  snd (get_video_metrics build video_ids api_key)
  = Return (results_after (build api_key) video_ids
              (length (batches video_ids))).
Proof.
  unfold get_video_metrics. rewrite results_after_all.
  apply rounds_spec.
Qed.

Lemma results_from_NoDup (youtube : remote_service) (bs : list (list string)) :
  forall (n : nat) (results : dict MetricsOutcome),
    NoDup (dict_keys results) ->
    NoDup (dict_keys (results_from youtube n bs results)).
Proof.
  induction bs as [|b bs IH]; intros n results H; simpl.
  - assumption.
  - apply IH. now apply process_batch_NoDup.
Qed.

Lemma results_after_NoDup (youtube : remote_service) (video_ids : list string)
  (k : nat) :
  NoDup (dict_keys (results_after youtube video_ids k)).
Proof. apply results_from_NoDup. constructor. Qed.

(** Every identifier of a batch is a key afterwards, and keys stay. *)
Lemma results_from_mem (youtube : remote_service) (video_id : string)
  (bs : list (list string)) :
  forall (n : nat) (results : dict MetricsOutcome),
    dict_mem video_id results = true \/ In video_id (concat bs) ->
    dict_mem video_id (results_from youtube n bs results) = true.
Proof.
  induction bs as [|b bs IH]; intros n results H; simpl.
  - destruct H as [H|[]]. exact H.
  - apply IH. rewrite process_batch_mem.
    destruct H as [H|H].
    + left. now rewrite H.
    + simpl in H. apply in_app_or in H. destruct H as [H|H]; [left|now right].
      apply mem_In in H. rewrite H. now rewrite orb_true_r.
Qed.

(* ====================================================================== *)
(** * The rounds with their numbers *)
(* ====================================================================== *)

Lemma skipn_numbered {A : Type} (m : nat) :
  forall (n : nat) (l : list A),
    skipn m (combine (seq n (length l)) l)
    = combine (seq (n + m) (length (skipn m l))) (skipn m l).
Proof.
  induction m as [|m IH]; intros n l.
  - now rewrite Nat.add_0_r.
  - destruct l as [|x l]; simpl; [reflexivity|].
    rewrite IH. now replace (S n + m) with (n + S m) by lia.
Qed.

Lemma firstn_numbered {A : Type} (m : nat) :
  forall (n : nat) (l : list A),
    firstn m (combine (seq n (length l)) l)
    = combine (seq n (length (firstn m l))) (firstn m l).
Proof.
  induction m as [|m IH]; intros n l.
  - reflexivity.
  - destruct l as [|x l]; simpl; [reflexivity|].
    now rewrite IH.
Qed.

Lemma forallb_firstn {A : Type} (f : A -> bool) (l : list A) (k : nat) :
  forallb f l = true -> forallb f (firstn k l) = true.
Proof.
  intros H. rewrite <- (firstn_skipn k l), forallb_app in H.
  now apply andb_true_iff in H.
Qed.

Lemma forallb_skipn {A : Type} (f : A -> bool) (l : list A) (k : nat) :
  forallb f l = true -> forallb f (skipn k l) = true.
Proof.
  intros H. rewrite <- (firstn_skipn k l), forallb_app in H.
  now apply andb_true_iff in H.
Qed.

(** A numbered round is a batch at its position. *)
Lemma numbered_nth (video_ids batch : list string) (k : nat) :
  nth_error (batches video_ids) k = Some batch ->
  In (k, batch) (numbered video_ids).
Proof.
  intros H. unfold numbered.
  destruct (batches_split _ _ _ H) as [Hsplit Hlen].
  rewrite <- (firstn_skipn k (combine _ _)). apply in_or_app. right.
  rewrite skipn_numbered. simpl.
  rewrite Hsplit at 1 2. rewrite skipn_app, Hlen, Nat.sub_diag.
  rewrite skipn_all2 by lia. simpl. now left.
Qed.

(** Rounds that do not touch an identifier leave its entry as it is. *)
Lemma results_from_untouched (youtube : remote_service) (video_id : string)
  (bs : list (list string)) :
  forall (n : nat) (results : dict MetricsOutcome),
    forallb (untouched_by_round youtube video_id)
            (combine (seq n (length bs)) bs) = true ->
    dict_get video_id (results_from youtube n bs results)
    = dict_get video_id results.
Proof.
  induction bs as [|b bs IH]; intros n results H; simpl in *.
  - reflexivity.
  - apply andb_true_iff in H. destruct H as [Hb Hbs].
    rewrite IH by assumption. rewrite process_batch_get.
    unfold untouched_by_round in Hb. simpl in Hb.
    apply andb_true_iff in Hb. destruct Hb as [Hmem Hresp].
    apply negb_true_iff in Hmem. rewrite Hmem.
    destruct (youtube n (join "," b)) as [items|status content].
    + apply negb_true_iff in Hresp. apply last_item_none in Hresp.
      now rewrite Hresp.
    + now destruct (dict_get video_id results).
Qed.

(** When the responses stay within their batches, so do the keys. *)
Lemma results_from_within (youtube : remote_service) (video_id : string)
  (bs : list (list string)) :
  forall (n : nat) (results : dict MetricsOutcome),
    forallb (answers_within_round youtube)
            (combine (seq n (length bs)) bs) = true ->
    dict_mem video_id (results_from youtube n bs results) = true ->
    dict_mem video_id results = true \/ In video_id (concat bs).
Proof.
  induction bs as [|b bs IH]; intros n results H Hmem; simpl in *.
  - now left.
  - apply andb_true_iff in H. destruct H as [Hb Hbs].
    destruct (IH _ _ Hbs Hmem) as [Hin|Hin]; [|right; apply in_or_app; now right].
    rewrite process_batch_mem in Hin.
    apply orb_true_iff in Hin. destruct Hin as [Hin|Hin].
    + apply orb_true_iff in Hin. destruct Hin as [Hin|Hin]; [now left|].
      right. apply in_or_app. left. now apply mem_In.
    + right. apply in_or_app. left.
      unfold answers_within_round in Hb. simpl in Hb.
      destruct (youtube n (join "," b)) as [items|status content];
        [|discriminate].
      apply mem_In, in_map_iff in Hin. destruct Hin as [it [Heq Hit]].
      rewrite forallb_forall in Hb. apply Hb in Hit.
      apply mem_In. now rewrite <- Heq.
Qed.

(** The state after the first [k] rounds has keys of the first [k] batches
    only, when the responses stay within their batches. *)
Lemma results_after_within (youtube : remote_service) (video_ids : list string)
  (k : nat) (video_id : string) :
  answers_within youtube video_ids = true ->
  dict_mem video_id (results_after youtube video_ids k) = true ->
  In video_id (concat (firstn k (batches video_ids))).
Proof.
  intros Hw Hmem. unfold results_after in Hmem.
  apply results_from_within in Hmem.
  - destruct Hmem as [Hmem|Hmem]; [discriminate | assumption].
  - rewrite <- firstn_numbered. now apply forallb_firstn.
Qed.

(** The entry of an identifier that no later round touches is final after
    round [k]. *)
Lemma final_get (youtube : remote_service) (video_ids batch : list string)
  (k : nat) (video_id : string) :
  nth_error (batches video_ids) k = Some batch ->
  untouched_after youtube video_ids k video_id = true ->
  dict_get video_id (results_after youtube video_ids (length (batches video_ids)))
  = dict_get video_id (results_after youtube video_ids (S k)).
Proof.
  intros Hk Hu. rewrite results_after_all. unfold results_after.
  rewrite <- (firstn_skipn (S k) (batches video_ids)) at 1.
  rewrite results_from_app. apply results_from_untouched.
  unfold untouched_after, numbered in Hu. rewrite skipn_numbered in Hu.
  assert (Hlen : length (firstn (S k) (batches video_ids)) = S k).
  { apply firstn_length_le. apply nth_error_Some. congruence. }
  now rewrite Hlen.
Qed.

Lemma NoDup_app_disjoint {A : Type} (l1 l2 : list A) (x : A) :
  NoDup (l1 ++ l2) -> In x l1 -> ~ In x l2.
Proof.
  induction l1 as [|z l1 IH]; simpl; intros Hnd Hin Hin2; [destruct Hin|].
  inversion Hnd as [|? ? Hnot Hnd']. subst.
  destruct Hin as [Heq|Hin].
  - subst. apply Hnot. apply in_or_app. now right.
  - now apply IH.
Qed.

(** Distinct batches of a list without duplicates share no element. *)
Lemma concat_NoDup_disjoint {A : Type} (l : list (list A)) :
  NoDup (concat l) ->
  forall (j k : nat) (a b : list A) (x : A),
    nth_error l j = Some a -> nth_error l k = Some b -> j <> k ->
    In x a -> ~ In x b.
Proof.
  induction l as [|c l IH]; intros Hnd j k a b x Hj Hk Hne Ha Hb.
  - destruct j; discriminate.
  - simpl in Hnd.
    assert (Hdis : forall y, In y c -> ~ In y (concat l)).
    { intros y Hy. now apply (NoDup_app_disjoint c). }
    assert (Hin : forall i d, nth_error l i = Some d -> In x d ->
                              In x (concat l)).
    { intros i d Hi Hd. apply in_concat. exists d. split; [|assumption].
      eapply nth_error_In, Hi. }
    destruct j as [|j], k as [|k]; simpl in Hj, Hk.
    + congruence.
    + inversion Hj. subst. apply (Hdis x Ha). eapply Hin; eassumption.
    + inversion Hk. subst. apply (Hdis x Hb). eapply Hin; eassumption.
    + apply NoDup_app_remove_l in Hnd.
      apply (IH Hnd j k a b x); auto.
Qed.

(* ====================================================================== *)
(** * Properties of [get_video_metrics] *)
(* ====================================================================== *)

Lemma distinct_NoDup (l : list string) : distinct l = true -> NoDup l.
Proof.
  induction l as [|x l IH]; simpl; intros H.
  - constructor.
  - apply andb_true_iff in H. destruct H as [Hx Hl].
    apply negb_true_iff, mem_not_In in Hx. constructor; auto.
Qed.

(** [get_video_metrics] returns the state after all rounds; it makes one
    request per batch, in order, and writes no file. *)
Lemma get_video_metrics_spec (build : string -> remote_service)
  (video_ids : list string) (api_key : string) :
  exists ev,
    get_video_metrics build video_ids api_key
    = (ev, Return (results_after (build api_key) video_ids
                     (length (batches video_ids))))
    /\ requests_of ev = map (join ",") (batches video_ids)
    /\ writes_of ev = [].
Proof.
  pose proof (get_video_metrics_returns build video_ids api_key) as Hs.
  unfold get_video_metrics in *.
  destruct (rounds_spec (build api_key) (batches video_ids) 0 [])
    as [_ [Hr Hw]].
  destruct (rounds (build api_key) 0 (batches video_ids) []) as [ev r].
  simpl in *. subst r. exists ev. auto.
Qed.

(** Every input identifier is a key of the final state. *)
Lemma results_after_all_mem (youtube : remote_service)
  (video_ids : list string) (video_id : string) :
  In video_id video_ids ->
  dict_mem video_id
    (results_after youtube video_ids (length (batches video_ids))) = true.
Proof.
  intros H. rewrite results_after_all. apply results_from_mem. right.
  now rewrite batches_concat.
Qed.

Lemma placeholder_classified (e : string) :
  e <> "" -> classified (placeholder e).
Proof. intros H. unfold classified, holds_placeholders. simpl. tauto. Qed.

Lemma process_batch_classified (r : response) (batch : list string)
  (results : dict MetricsOutcome) :
  Forall (fun e => classified (snd e)) results ->
  Forall (fun e => classified (snd e)) (process_batch r batch results).
Proof.
  intros H.
  pose (P := fun d : dict MetricsOutcome => Forall (fun e => classified (snd e)) d).
  destruct r as [items|status content];
    unfold process_batch, store_missing, store_items, store_failed.
  - apply (fold_left_invariant P).
    + intros a b Ha. destruct (mem b (map item_id items)); [assumption|].
      apply dict_set_Forall; [|assumption].
      apply placeholder_classified. discriminate.
    + apply (fold_left_invariant P); [|assumption].
      intros a b Ha. apply dict_set_Forall; [exact I | assumption].
  - apply (fold_left_invariant P); [|assumption].
    intros a b Ha. destruct (dict_mem b a); [assumption|].
    apply dict_set_Forall; [|assumption].
    apply placeholder_classified. discriminate.
Qed.

Lemma results_from_classified (youtube : remote_service)
  (bs : list (list string)) :
  forall (n : nat) (results : dict MetricsOutcome),
    Forall (fun e => classified (snd e)) results ->
    Forall (fun e => classified (snd e)) (results_from youtube n bs results).
Proof.
  induction bs as [|b bs IH]; intros n results H; simpl.
  - assumption.
  - apply IH. now apply process_batch_classified.
Qed.




(** The rounds of a numbered list are its elements at their positions. *)
Lemma In_numbered_from {A : Type} (l : list A) :
  forall (n i : nat) (b : A),
    In (i, b) (combine (seq n (length l)) l) ->
    exists m, i = n + m /\ nth_error l m = Some b.
Proof.
  induction l as [|x l IH]; intros n i b H; simpl in H.
  - destruct H.
  - destruct H as [H|H].
    + inversion H. subst. exists 0. split; [lia | reflexivity].
    + apply IH in H. destruct H as [m [Hi Hm]].
      exists (S m). split; [lia | exact Hm].
Qed.

(** For pairwise distinct identifiers and responses that stay within their
    batches, no round touches an identifier of another round. *)
Lemma distinct_untouched (youtube : remote_service)
  (video_ids batch : list string) (k : nat) (video_id : string) :
  NoDup video_ids ->
  answers_within youtube video_ids = true ->
  nth_error (batches video_ids) k = Some batch ->
  In video_id batch ->
  untouched_after youtube video_ids k video_id = true
  /\ dict_get video_id (results_after youtube video_ids k) = None.
Proof.
  intros Hnd Hw Hk Hin.
  rewrite <- (batches_concat video_ids) in Hnd.
  assert (Hother : forall i b, i <> k ->
             nth_error (batches video_ids) i = Some b ->
             untouched_by_round youtube video_id (i, b) = true).
  { intros i b Hne Hi.
    assert (Hnot : ~ In video_id b).
    { apply (concat_NoDup_disjoint _ Hnd k i batch b); auto. }
    unfold untouched_by_round. simpl.
    apply mem_not_In in Hnot. rewrite Hnot. simpl.
    unfold answers_within in Hw. rewrite forallb_forall in Hw.
    specialize (Hw (i, b) (numbered_nth _ _ _ Hi)).
    unfold answers_within_round in Hw. simpl in Hw.
    destruct (youtube i (join "," b)) as [items|]; [|reflexivity].
    apply negb_true_iff, mem_not_In. intros Hitems.
    apply in_map_iff in Hitems. destruct Hitems as [it [Heq Hit]].
    rewrite forallb_forall in Hw. apply Hw in Hit.
    apply mem_In in Hit. rewrite Heq in Hit.
    apply mem_not_In in Hnot. contradiction. }
  split.
  - unfold untouched_after, numbered. rewrite skipn_numbered.
    apply forallb_forall. intros [i b] Hib.
    apply In_numbered_from in Hib. destruct Hib as [m [Hi Hm]].
    rewrite nth_error_skipn in Hm. simpl in Hi. subst i.
    apply Hother; [lia | exact Hm].
  - destruct (dict_get video_id (results_after youtube video_ids k)) eqn:G;
      [|reflexivity].
    exfalso.
    assert (Hmem : dict_mem video_id (results_after youtube video_ids k) = true).
    { unfold dict_mem. now rewrite G. }
    apply results_after_within in Hmem; [|assumption].
    apply in_concat in Hmem. destruct Hmem as [b [Hb Hvb]].
    apply In_nth_error in Hb. destruct Hb as [i Hi].
    rewrite nth_error_firstn in Hi.
    destruct (i <? k) eqn:E; [|discriminate].
    apply Nat.ltb_lt in E.
    apply (concat_NoDup_disjoint _ Hnd k i batch b video_id); auto. lia.
Qed.

(** C5.  When the request of a round succeeds, every identifier of its batch
    that the response does not carry holds, after that round, the outcome
    with the seven placeholders and the error
    [Video not found (may be deleted or private)]; it is the outcome
    [get_video_metrics] returns for it when no later round touches the
    identifier. *)
Theorem missing_video_not_found (build : string -> remote_service)
  (video_ids : list string) (api_key : string) (k : nat)
  (batch : list string) (items : list item) (video_id : string) :
  nth_error (batches video_ids) k = Some batch ->
  build api_key k (join "," batch) = Response items ->
  In video_id batch ->
  ~ In video_id (map item_id items) ->
  let outcome :=
    {| title := "N/A"; channel_name := "N/A"; upload_date := "N/A";
       view_count := "0"; like_count := "0"; comment_count := "0";
       duration := "N/A";
       error := Some "Video not found (may be deleted or private)" |} in
  dict_get video_id (results_after (build api_key) video_ids (S k))
  = Some outcome
  /\ (untouched_after (build api_key) video_ids k video_id = true ->
      exists ev results,
        get_video_metrics build video_ids api_key = (ev, Return results)
        /\ dict_get video_id results = Some outcome).
Proof.
  intros Hk Hresp Hin Hnot outcome.
  assert (Hafter : dict_get video_id
                     (results_after (build api_key) video_ids (S k))
                   = Some outcome).
  { rewrite (results_after_S _ _ _ _ Hk), process_batch_get, Hresp.
    apply mem_not_In, last_item_none in Hnot. rewrite Hnot.
    apply mem_In in Hin. now rewrite Hin. }
  split; [exact Hafter|]. intros Hu.
  destruct (get_video_metrics_spec build video_ids api_key) as [ev [Heq _]].
  exists ev, (results_after (build api_key) video_ids (length (batches video_ids))).
  split; [exact Heq|].
  now rewrite (final_get _ _ _ _ _ Hk Hu).
Qed.

Lemma missing_video_not_found_witness :
  dict_get "v45"
    (results_after (catalogue (sample_videos 40)) (sample_ids 60) 1)
  = Some (placeholder not_found)
  /\ exists ev results,
       get_video_metrics (fun _ => catalogue (sample_videos 40))
                         (sample_ids 60) "KEY" = (ev, Return results)
       /\ dict_get "v45" results = Some (placeholder not_found).
Proof.
  assert (Hnot : ~ In "v45" (map item_id (sample_videos 40))).
  { apply mem_not_In. vm_compute. reflexivity. }
  assert (Hin : In "v45" (firstn 50 (sample_ids 60))).
  { apply mem_In. vm_compute. reflexivity. }
  destruct (missing_video_not_found (fun _ => catalogue (sample_videos 40))
              (sample_ids 60) "KEY" 0 (firstn 50 (sample_ids 60))
              (sample_videos 40) "v45"
              ltac:(vm_compute; reflexivity) ltac:(vm_compute; reflexivity)
              Hin Hnot) as [H1 H2].
  split; [exact H1|]. apply H2. vm_compute. reflexivity.
Defined.

(** For pairwise distinct identifiers and responses that stay within their
    batches, the final outcome of an identifier is the one its own round
    stores, starting from the empty mapping. *)
Lemma final_get_distinct (youtube : remote_service)
  (video_ids batch : list string) (k : nat) (video_id : string) :
  NoDup video_ids ->
  answers_within youtube video_ids = true ->
  nth_error (batches video_ids) k = Some batch ->
  In video_id batch ->
  dict_get video_id
    (results_after youtube video_ids (length (batches video_ids)))
  = dict_get video_id (process_batch (youtube k (join "," batch)) batch []).
Proof.
  intros Hnd Hw Hk Hin.
  destruct (distinct_untouched _ _ _ _ _ Hnd Hw Hk Hin) as [Hu Hnone].
  rewrite (final_get _ _ _ _ _ Hk Hu), (results_after_S _ _ _ _ Hk).
  rewrite !process_batch_get, Hnone. reflexivity.
Qed.

(** C4, as the code has it.  When the request of round [k] fails with a
    status and a body, every identifier of its batch that is not yet a key
    receives the outcome with the seven placeholders and the error
    [API Error: <status> - <body>]; the entries that exist are kept and no
    other entry is made.  There is one request per batch, failed or not.
    For pairwise distinct identifiers and responses that stay within their
    batches, every identifier of the failed batch ends with that outcome, and
    every identifier of another batch ends with the outcome its own round
    gives it. *)
Theorem failed_batch_outcomes (build : string -> remote_service)
  (video_ids : list string) (api_key : string) (k : nat)
  (batch : list string) (status : nat) (content : string) :
  nth_error (batches video_ids) k = Some batch ->
  build api_key k (join "," batch) = HttpError status content ->
  let before := results_after (build api_key) video_ids k in
  let after := results_after (build api_key) video_ids (S k) in
  let outcome :=
    {| title := "N/A"; channel_name := "N/A"; upload_date := "N/A";
       view_count := "0"; like_count := "0"; comment_count := "0";
       duration := "N/A";
       error := Some ("API Error: " +++ show status +++ " - " +++ content) |} in
  (forall video_id, In video_id batch -> dict_get video_id before = None ->
                    dict_get video_id after = Some outcome)
  /\ (forall video_id o, dict_get video_id before = Some o ->
                         dict_get video_id after = Some o)
  /\ (forall video_id, ~ In video_id batch ->
                       dict_get video_id after = dict_get video_id before)
  /\ exists ev results,
       get_video_metrics build video_ids api_key = (ev, Return results)
       /\ requests_of ev = map (join ",") (batches video_ids)
       /\ (NoDup video_ids ->
           answers_within (build api_key) video_ids = true ->
           (forall video_id, In video_id batch ->
                             dict_get video_id results = Some outcome)
           /\ (forall j other video_id,
                 j <> k -> nth_error (batches video_ids) j = Some other ->
                 In video_id other ->
                 dict_get video_id results
                 = dict_get video_id
                     (process_batch (build api_key j (join "," other)) other []))).
Proof.
  intros Hk Hresp before after outcome.
  assert (Hstep : forall video_id,
             dict_get video_id after
             = match dict_get video_id before with
               | Some o => Some o
               | None => if mem video_id batch then Some outcome else None
               end).
  { intros video_id. unfold after, before.
    now rewrite (results_after_S _ _ _ _ Hk), process_batch_get, Hresp. }
  split; [|split; [|split]].
  - intros video_id Hin Hnone. rewrite Hstep, Hnone.
    apply mem_In in Hin. now rewrite Hin.
  - intros video_id o Hsome. now rewrite Hstep, Hsome.
  - intros video_id Hnot. rewrite Hstep.
    apply mem_not_In in Hnot. rewrite Hnot.
    now destruct (dict_get video_id before).
  - destruct (get_video_metrics_spec build video_ids api_key) as [ev [Heq [Hr _]]].
    exists ev, (results_after (build api_key) video_ids (length (batches video_ids))).
    split; [exact Heq|]. split; [exact Hr|].
    intros Hnd Hw. split.
    + intros video_id Hin.
      rewrite (final_get_distinct _ _ _ _ _ Hnd Hw Hk Hin).
      rewrite process_batch_get, Hresp. simpl.
      apply mem_In in Hin. now rewrite Hin.
    + intros j other video_id _ Hj Hin.
      apply (final_get_distinct _ _ _ _ _ Hnd Hw Hj Hin).
Qed.

Lemma failed_batch_outcomes_witness :
  let youtube := failing_at 1 403 "forbidden" (catalogue (sample_videos 120)) in
  let outcome := placeholder "API Error: 403 - forbidden" in
  (forall video_id,
      In video_id (firstn 50 (skipn 50 (sample_ids 120))) ->
      dict_get video_id (results_after youtube (sample_ids 120) 1) = None ->
      dict_get video_id (results_after youtube (sample_ids 120) 2)
      = Some outcome)
  /\ exists ev results,
       get_video_metrics (fun _ => youtube) (sample_ids 120) "KEY"
       = (ev, Return results)
       /\ length (requests_of ev) = 3
       /\ (forall video_id,
              In video_id (firstn 50 (skipn 50 (sample_ids 120))) ->
              dict_get video_id results = Some outcome)
       /\ dict_get "v7" results
          = Some (found (video "v7" "Title" "2025-01-01T00:00:00Z" "10"))
       /\ dict_get "v107" results
          = Some (found (video "v107" "Title" "2025-01-01T00:00:00Z" "10")).
Proof.
  intros youtube outcome.
  destruct (failed_batch_outcomes (fun _ => youtube) (sample_ids 120) "KEY" 1
              (firstn 50 (skipn 50 (sample_ids 120))) 403 "forbidden"
              ltac:(vm_compute; reflexivity) ltac:(vm_compute; reflexivity))
    as [H1 [_ [_ [ev [results [Heq [Hr H4]]]]]]].
  split; [exact H1|].
  exists ev, results. split; [exact Heq|].
  split; [rewrite Hr; vm_compute; reflexivity|].
  assert (Hnd : NoDup (sample_ids 120)).
  { apply distinct_NoDup. vm_compute. reflexivity. }
  assert (Hw : answers_within youtube (sample_ids 120) = true).
  { vm_compute. reflexivity. }
  destruct (H4 Hnd Hw) as [Hfailed Hother].
  split; [exact Hfailed|]. split.
  - rewrite (Hother 0 (firstn 50 (sample_ids 120)) "v7"
               ltac:(discriminate) ltac:(vm_compute; reflexivity)
               ltac:(apply mem_In; vm_compute; reflexivity)).
    vm_compute. reflexivity.
  - rewrite (Hother 2 (skipn 100 (sample_ids 120)) "v107"
               ltac:(discriminate) ltac:(vm_compute; reflexivity)
               ltac:(apply mem_In; vm_compute; reflexivity)).
    vm_compute. reflexivity.
Defined.

(** The claim C4 as it is worded fails: an identifier of the failed batch
    that an earlier round has stored keeps its earlier outcome. *)
Lemma failed_batch_outcomes_counterexample :
  let youtube := failing_at 1 403 "forbidden" (catalogue (sample_videos 50)) in
  let video_ids := sample_ids 50 ++ ["v3"] in
  exists ev results,
    get_video_metrics (fun _ => youtube) video_ids "KEY" = (ev, Return results)
    /\ nth_error (batches video_ids) 1 = Some ["v3"]
    /\ youtube 1 (join "," ["v3"]) = HttpError 403 "forbidden"
    /\ (forall j batch, j <> 1 -> nth_error (batches video_ids) j = Some batch ->
                        exists items, youtube j (join "," batch) = Response items)
    /\ dict_get "v3" results
       = Some (found (video "v3" "Title" "2025-01-01T00:00:00Z" "10"))
    /\ dict_get "v3" results <> Some (placeholder (api_error 403 "forbidden")).
Proof.
  intros youtube video_ids.
  destruct (get_video_metrics_spec (fun _ => youtube) video_ids "KEY")
    as [ev [Heq _]].
  exists ev, (results_after youtube video_ids (length (batches video_ids))).
  split; [exact Heq|].
  split; [vm_compute; reflexivity|].
  split; [reflexivity|].
  split.
  - intros j batch Hj _. unfold youtube, failing_at, catalogue.
    destruct (j =? 1) eqn:E; [apply Nat.eqb_eq in E; contradiction|].
    eexists. reflexivity.
  - split; [vm_compute; reflexivity | vm_compute; discriminate].
Qed.

(** C7, as the code has it.  The batches are the input list as it is, with
    its repetitions, and each is requested once.  For an identifier of batch
    [k] that no later round touches, the outcome [get_video_metrics] returns
    is decided by round [k]: when its request succeeds, the outcome of the
    last item that carries the identifier, or the not-found outcome; when
    its request fails, the outcome that was stored before, and the error
    outcome only if none was. *)
Theorem last_round_decides (build : string -> remote_service)
  (video_ids : list string) (api_key : string) (k : nat)
  (batch : list string) (video_id : string) :
  nth_error (batches video_ids) k = Some batch ->
  In video_id batch ->
  untouched_after (build api_key) video_ids k video_id = true ->
  concat (batches video_ids) = video_ids
  /\ exists ev results,
       get_video_metrics build video_ids api_key = (ev, Return results)
       /\ requests_of ev = map (join ",") (batches video_ids)
       /\ dict_get video_id results
          = match build api_key k (join "," batch) with
            | Response items =>
                match last_item video_id items with
                | Some it => Some (found it)
                | None => Some (placeholder not_found)
                end
            | HttpError status content =>
                match dict_get video_id
                        (results_after (build api_key) video_ids k) with
                | Some o => Some o
                | None => Some (placeholder (api_error status content))
                end
            end.
Proof.
  intros Hk Hin Hu. split; [apply batches_concat|].
  destruct (get_video_metrics_spec build video_ids api_key) as [ev [Heq [Hr _]]].
  exists ev, (results_after (build api_key) video_ids (length (batches video_ids))).
  split; [exact Heq|]. split; [exact Hr|].
  rewrite (final_get _ _ _ _ _ Hk Hu), (results_after_S _ _ _ _ Hk).
  rewrite process_batch_get. apply mem_In in Hin. rewrite Hin.
  reflexivity.
Qed.

Lemma last_round_decides_witness :
  let youtube := failing_at 0 500 "down" (catalogue []) in
  let video_ids := sample_ids 50 ++ ["v3"] in
  exists ev results,
    get_video_metrics (fun _ => youtube) video_ids "KEY" = (ev, Return results)
    /\ requests_of ev = map (join ",") (batches video_ids)
    /\ dict_get "v3" results = Some (placeholder not_found).
Proof.
  intros youtube video_ids.
  destruct (last_round_decides (fun _ => youtube) video_ids "KEY" 1 ["v3"] "v3"
              ltac:(vm_compute; reflexivity) ltac:(simpl; tauto)
              ltac:(vm_compute; reflexivity))
    as [_ [ev [results [Heq [Hr Hget]]]]].
  exists ev, results. split; [exact Heq|]. split; [exact Hr|].
  rewrite Hget. vm_compute. reflexivity.
Defined.

(** The claim C7 as it is worded fails when the last round that has the
    identifier in its batch fails: the outcome of the earlier round stays. *)
Lemma last_round_decides_counterexample :
  let youtube := failing_at 1 500 "down" (catalogue (sample_videos 50)) in
  let video_ids := sample_ids 50 ++ ["v0"] in
  exists ev results,
    get_video_metrics (fun _ => youtube) video_ids "KEY" = (ev, Return results)
    /\ batches video_ids = [sample_ids 50; ["v0"]]
    /\ youtube 1 (join "," ["v0"]) = HttpError 500 "down"
    /\ (forall o, dict_get "v0" (process_batch (youtube 1 (join "," ["v0"])) ["v0"] [])
                  = Some o -> o = placeholder (api_error 500 "down"))
    /\ dict_get "v0" results
       = Some (found (video "v0" "Title" "2025-01-01T00:00:00Z" "10")).
Proof.
  intros youtube video_ids.
  destruct (get_video_metrics_spec (fun _ => youtube) video_ids "KEY")
    as [ev [Heq _]].
  exists ev, (results_after youtube video_ids (length (batches video_ids))).
  split; [exact Heq|].
  split; [vm_compute; reflexivity|].
  split; [reflexivity|].
  split; [|vm_compute; reflexivity].
  intros o H. vm_compute in H. inversion H. reflexivity.
Qed.

(* ====================================================================== *)
(** * The report *)
(* ====================================================================== *)

(** The order of the sort keys. *)
Lemma ltb_false_leb (a b : string) :
  String.ltb a b = false <-> String.leb b a = true.
Proof.
  unfold String.ltb, String.leb. rewrite (String.compare_antisym b a).
  destruct (String.compare a b); simpl; split; congruence.
Qed.

Lemma ltb_leb (a b : string) : String.ltb a b = true -> String.leb a b = true.
Proof.
  unfold String.ltb, String.leb. destruct (String.compare a b); congruence.
Qed.

Lemma leb_trans (a b c : string) :
  String.leb a b = true -> String.leb b c = true -> String.leb a c = true.
Proof.
  unfold String.leb. intros Hab Hbc.
  destruct (String.compare a b) eqn:Eab; [| |discriminate].
  - apply String.compare_eq_iff in Eab. now subst.
  - destruct (String.compare b c) eqn:Ebc; [| |discriminate].
    + apply String.compare_eq_iff in Ebc. subst. now rewrite Eab.
    + apply String_as_OT.cmp_lt in Eab, Ebc.
      pose proof (String_as_OT.lt_trans _ _ _ Eab Ebc) as Hac.
      apply String_as_OT.cmp_lt in Hac. unfold String_as_OT.cmp in Hac.
      now rewrite Hac.
Qed.

Lemma insert_row_perm (x : ReportRow) (l : list ReportRow) :
  Permutation (insert_row x l) (x :: l).
Proof.
  induction l as [|y l IH]; simpl.
  - apply Permutation_refl.
  - destruct (String.ltb (r_upload_date y) (r_upload_date x)).
    + eapply perm_trans; [apply perm_skip, IH | apply perm_swap].
    + apply Permutation_refl.
Qed.

Lemma sort_rows_perm (l : list ReportRow) : Permutation (sort_rows l) l.
Proof.
  induction l as [|x l IH]; simpl.
  - constructor.
  - eapply perm_trans; [apply insert_row_perm | now apply perm_skip].
Qed.

Lemma insert_row_sorted (x : ReportRow) (l : list ReportRow) :
  StronglySorted
    (fun a b => String.leb (r_upload_date a) (r_upload_date b) = true) l ->
  StronglySorted
    (fun a b => String.leb (r_upload_date a) (r_upload_date b) = true)
    (insert_row x l).
Proof.
  induction l as [|y l IH]; simpl; intros Hs.
  - repeat constructor.
  - inversion Hs as [|? ? Hl Hy]. subst.
    destruct (String.ltb (r_upload_date y) (r_upload_date x)) eqn:E.
    + constructor; [now apply IH|].
      rewrite Forall_forall in *. intros z Hz.
      apply (Permutation_in _ (insert_row_perm x l)) in Hz.
      destruct Hz as [Hz|Hz]; [subst; now apply ltb_leb | now apply Hy].
    + apply ltb_false_leb in E. constructor; [assumption|].
      constructor; [assumption|].
      rewrite Forall_forall in *. intros z Hz.
      eapply leb_trans; [exact E | now apply Hy].
Qed.

Lemma sort_rows_sorted (l : list ReportRow) :
  StronglySorted
    (fun a b => String.leb (r_upload_date a) (r_upload_date b) = true)
    (sort_rows l).
Proof.
  induction l as [|x l IH]; simpl.
  - constructor.
  - now apply insert_row_sorted.
Qed.

(** A timestamp, which begins with a digit, is below the placeholder. *)
Lemma digit_below_placeholder (c : ascii) (s : string) :
  in_range "0" "9" c = true -> String.ltb (String c s) "N/A" = true.
Proof.
  unfold in_range. intros H. apply andb_true_iff in H. destruct H as [_ H].
  apply Nat.leb_le in H. unfold String.ltb. simpl.
  assert (Hlt : Ascii.compare c "N" = Lt).
  { apply Ascii_as_OT.cmp_lt_nat.
    change (nat_of_ascii "9") with 57 in H.
    change (nat_of_ascii "N") with 78. lia. }
  now rewrite Hlt.
Qed.

(* ====================================================================== *)
(** * Traces of [main] *)
(* ====================================================================== *)

Lemma snd_bind {A B : Type} (m : io A) (f : A -> io B) :
  snd (bind m f)
  = match snd m with
    | Return a => snd (f a)
    | Raise e => Raise e
    end.
Proof. destruct m as [ev [a|e]]; simpl; [now destruct (f a) | reflexivity]. Qed.

Lemma fst_bind {A B : Type} (m : io A) (f : A -> io B) :
  fst (bind m f)
  = fst m ++ match snd m with
             | Return a => fst (f a)
             | Raise _ => []
             end.
Proof.
  destruct m as [ev [a|e]]; simpl; [now destruct (f a) | now rewrite app_nil_r].
Qed.

(** [extract_video_id] leaves no trace. *)
Lemma extract_video_id_trace {L : Urllib} (url : string) :
  fst (extract_video_id url) = [].
Proof.
  unfold extract_video_id, youtu_be_rule, watch_rule.
  destruct (shorts_match url); [reflexivity|].
  destruct (contains "youtu.be/" url).
  - now destruct (urlparse url).
  - destruct (contains "youtube.com/watch" url); [|reflexivity].
    destruct (urlparse url) as [parsed|e]; [|reflexivity].
    destruct (dict_get "v" (parse_qs (query parsed))) as [[|v vs]|]; reflexivity.
Qed.

Lemma truthy_some (x : option string) (s : string) :
  truthy x = Some s <-> x = Some s /\ s <> "".
Proof.
  destruct x as [[|c x]|]; simpl; split.
  - discriminate.
  - intros [H Hne]. inversion H. subst. now contradiction Hne.
  - intros H. inversion H. split; [reflexivity | discriminate].
  - now intros [H _].
  - discriminate.
  - now intros [H _].
Qed.

Lemma collect_cons {L : Urllib} (video : InputRecord)
  (videos : list InputRecord) (video_id_map : dict InputRecord)
  (video_ids : list string) :
  collect (video :: videos) video_id_map video_ids
  = (video_id <- extract_video_id (url video) ;;
     match truthy video_id with
     | Some video_id =>
         collect videos (dict_set video_id video video_id_map)
                 (video_ids ++ [video_id])
     | None =>
         print ("Warning: Could not extract video ID from URL: " +++ url video) ;;;
         collect videos video_id_map video_ids
     end).
Proof. reflexivity. Qed.

(** The loop of [main] over the videos requests nothing and writes nothing. *)
Lemma collect_trace {L : Urllib} (videos : list InputRecord) :
  forall (video_id_map : dict InputRecord) (video_ids : list string),
    requests_of (fst (collect videos video_id_map video_ids)) = []
    /\ writes_of (fst (collect videos video_id_map video_ids)) = [].
Proof.
  induction videos as [|video videos IH]; intros video_id_map video_ids.
  - simpl. auto.
  - rewrite collect_cons, fst_bind, extract_video_id_trace. cbn [app].
    destruct (snd (extract_video_id (url video))) as [x|e]; [|auto].
    destruct (truthy x) as [video_id|].
    + apply IH.
    + rewrite fst_bind. cbn [print fst snd app requests_of writes_of].
      apply IH.
Qed.

(** Videos that do not resolve to [video_id] leave its entry and its
    presence among the identifiers as they are. *)
Lemma collect_others {L : Urllib} (video_id : string)
  (videos : list InputRecord) :
  forall (video_id_map video_id_map' : dict InputRecord)
         (video_ids video_ids' : list string),
    snd (collect videos video_id_map video_ids)
    = Return (video_id_map', video_ids') ->
    (forall v, In v videos ->
               snd (extract_video_id (url v)) <> Return (Some video_id)) ->
    dict_get video_id video_id_map' = dict_get video_id video_id_map
    /\ (In video_id video_ids -> In video_id video_ids').
Proof.
  induction videos as [|video videos IH];
    intros video_id_map video_id_map' video_ids video_ids' Hc Hnot.
  - simpl in Hc. inversion Hc. subst. auto.
  - rewrite collect_cons, snd_bind in Hc.
    destruct (snd (extract_video_id (url video))) as [x|e] eqn:Ex;
      [|discriminate].
    assert (Hrest : forall v, In v videos ->
               snd (extract_video_id (url v)) <> Return (Some video_id)).
    { intros v Hv. apply Hnot. now right. }
    destruct (truthy x) as [found_id|] eqn:Et.
    + apply truthy_some in Et. destruct Et as [Hx _]. subst x.
      destruct (IH _ _ _ _ Hc Hrest) as [Hget Hin].
      rewrite Hget, dict_get_set.
      assert (Hne : String.eqb video_id found_id = false).
      { apply String.eqb_neq. intros Heq. subst found_id.
        apply (Hnot video); [now left | exact Ex]. }
      rewrite Hne. split; [reflexivity|].
      intros H. apply Hin. apply in_or_app. now left.
    + rewrite snd_bind in Hc. simpl in Hc. apply (IH _ _ _ _ Hc Hrest).
Qed.

(** The last video that resolves to an identifier is the one the mapping
    keeps for it. *)
Lemma collect_last {L : Urllib} (video_id : string) (v : InputRecord)
  (back front : list InputRecord) :
  forall (video_id_map video_id_map' : dict InputRecord)
         (video_ids video_ids' : list string),
    snd (collect (front ++ v :: back) video_id_map video_ids)
    = Return (video_id_map', video_ids') ->
    snd (extract_video_id (url v)) = Return (Some video_id) ->
    video_id <> "" ->
    (forall v', In v' back ->
                snd (extract_video_id (url v')) <> Return (Some video_id)) ->
    dict_get video_id video_id_map' = Some v /\ In video_id video_ids'.
Proof.
  induction front as [|video front IH];
    intros video_id_map video_id_map' video_ids video_ids' Hc Hv Hne Hback;
    rewrite <- ?app_comm_cons in Hc; simpl app in Hc;
    rewrite collect_cons, snd_bind in Hc.
  - rewrite Hv in Hc.
    assert (Ht : truthy (Some video_id) = Some video_id).
    { now apply truthy_some. }
    rewrite Ht in Hc.
    destruct (collect_others video_id back _ _ _ _ Hc Hback) as [Hget Hin].
    rewrite Hget, dict_get_set, String.eqb_refl. split; [reflexivity|].
    apply Hin, in_or_app. right. now left.
  - destruct (snd (extract_video_id (url video))) as [x|e]; [|discriminate].
    destruct (truthy x) as [found_id|].
    + apply (IH _ _ _ _ Hc Hv Hne Hback).
    + rewrite snd_bind in Hc. simpl in Hc. apply (IH _ _ _ _ Hc Hv Hne Hback).
Qed.

Lemma writes_of_bind {A B : Type} (m : io A) (f : A -> io B) :
  writes_of (fst (bind m f))
  = writes_of (fst m) ++ match snd m with
                         | Return a => writes_of (fst (f a))
                         | Raise _ => []
                         end.
Proof.
  rewrite fst_bind, writes_of_app. now destruct (snd m).
Qed.

Lemma requests_of_bind {A B : Type} (m : io A) (f : A -> io B) :
  requests_of (fst (bind m f))
  = requests_of (fst m) ++ match snd m with
                           | Return a => requests_of (fst (f a))
                           | Raise _ => []
                           end.
Proof.
  rewrite fst_bind, requests_of_app. now destruct (snd m).
Qed.

(** Reading the key requests nothing and writes nothing. *)
Lemma read_api_key_trace (fs : filesystem) (filename : string) :
  requests_of (fst (read_api_key fs filename)) = []
  /\ writes_of (fst (read_api_key fs filename)) = [].
Proof.
  unfold read_api_key. destruct (files fs filename) as [content|].
  - now destruct (is_empty (strip is_space content)).
  - auto.
Qed.

Ltac trace_step :=
  rewrite writes_of_bind; cbn [print ret raise emit try fst snd writes_of app].

Lemma main_writes {L : Urllib} (w : world) (rows : list ReportRow) :
  In rows (writes_of (fst (main w))) ->
  exists api_key videos video_id_map video_ids,
    snd (read_input_csv (fs w) INPUT_CSV) = Return videos
    /\ snd (collect videos [] []) = Return (video_id_map, video_ids)
    /\ rows = output_data video_id_map
                (results_after (build w api_key) video_ids
                   (length (batches video_ids))).
Proof.
  unfold main. repeat trace_step. rewrite !snd_bind.
  destruct (read_api_key_trace (fs w) API_KEY_FILE) as [_ Hk]. rewrite Hk.
  destruct (snd (read_api_key (fs w) API_KEY_FILE)) as [api_key|e].
  2:{ destruct e; cbn; tauto. }
  rewrite snd_bind. cbn [print ret snd fst app]. repeat trace_step.
  unfold read_input_csv.
  destruct (tables (fs w) INPUT_CSV) as [reader|] eqn:Et; [|cbn; tauto].
  cbn [ret fst snd writes_of app]. repeat trace_step.
  destruct (collect_trace (flat_map read_row reader) [] []) as [_ Hc].
  rewrite Hc. cbn [app].
  destruct (snd (collect (flat_map read_row reader) [] []))
    as [[video_id_map video_ids]|e] eqn:Ec; [|cbn; tauto].
  repeat trace_step.
  destruct video_ids as [|video_id video_ids]; [cbn; tauto|].
  repeat trace_step.
  destruct (get_video_metrics_spec (build w) (video_id :: video_ids) api_key)
    as [ev [Heq [_ Hw]]].
  rewrite Heq. cbn [fst snd]. rewrite Hw. cbn [app].
  repeat trace_step.
  unfold write_output_csv.
  destruct (output_data _ _) as [|row data] eqn:Eo; [cbn; tauto|].
  repeat trace_step.
  intros [Hrows|[]]. subst rows.
  exists api_key, (flat_map read_row reader), video_id_map, (video_id :: video_ids).
  repeat split; [exact Ec | now rewrite Eo].
Qed.

Lemma extract_video_id_ret {L : Urllib} (url : string) (x : option string) :
  extract_video_id url = ret x <-> snd (extract_video_id url) = Return x.
Proof.
  split.
  - intros H. now rewrite H.
  - intros H. pose proof (extract_video_id_trace url) as Ht.
    destruct (extract_video_id url) as [ev r]. simpl in *. now subst.
Qed.

(** C8.  The report has one row for each entry of the outcome mapping, so
    as many rows as entries, and it is sorted in non-decreasing order of
    [upload_date] under the comparison of strings, in which a timestamp
    stands before the placeholder [N/A]; every report that [main] writes is
    sorted in this way. *)
Theorem output_data_sorted {L : Urllib} (video_id_map : dict InputRecord)
  (metrics : dict MetricsOutcome) :
  length (output_data video_id_map metrics) = length metrics
  /\ Permutation (output_data video_id_map metrics)
                 (map (combined_row video_id_map) metrics)
  /\ StronglySorted
       (fun a b => String.leb (r_upload_date a) (r_upload_date b) = true)
       (output_data video_id_map metrics)
  /\ (forall c s, in_range "0" "9" c = true ->
                  String.ltb (String c s) "N/A" = true)
  /\ (forall w rows,
        In rows (writes_of (fst (main w))) ->
        StronglySorted
          (fun a b => String.leb (r_upload_date a) (r_upload_date b) = true)
          rows).
Proof.
  unfold output_data. repeat split.
  - rewrite (Permutation_length (sort_rows_perm _)). apply length_map.
  - apply sort_rows_perm.
  - apply sort_rows_sorted.
  - apply digit_below_placeholder.
  - intros w rows Hrows. apply main_writes in Hrows.
    destruct Hrows as [api_key [videos [m [ids [_ [_ Hrows]]]]]].
    subst rows. apply sort_rows_sorted.
Qed.

Lemma output_data_sorted_witness :
  let rows := hd [] (writes_of (fst (main (L := plain_urllib) world_three))) in
  map r_upload_date rows
  = ["2024-12-31T23:59:59Z"; "2025-03-01T00:00:00Z"; "N/A"]
  /\ map r_nickname rows = ["Carol"; "Alice"; "Bob"]
  /\ StronglySorted
       (fun a b => String.leb (r_upload_date a) (r_upload_date b) = true)
       rows.
Proof.
  intros rows. split; [vm_compute; reflexivity|].
  split; [vm_compute; reflexivity|].
  apply (proj2 (proj2 (proj2 (proj2
           (output_data_sorted (L := plain_urllib) [] []))))
           world_three rows).
  vm_compute. left. reflexivity.
Defined.

(** C6, as the code has it.  The report that [main] writes has one row for
    each identifier, never two: when two input rows resolve to the same
    identifier, the report holds exactly one row for it, and that row
    carries the nickname and the URL of the last input row that resolves to
    the identifier. *)
Theorem one_row_per_identifier {L : Urllib} (w : world)
  (rows : list ReportRow) :
  In rows (writes_of (fst (main w))) ->
  NoDup (map r_video_id rows)
  /\ forall videos front v1 middle v2 back video_id,
       read_input_csv (fs w) INPUT_CSV = ret videos ->
       videos = front ++ v1 :: middle ++ v2 :: back ->
       extract_video_id (url v1) = ret (Some video_id) ->
       extract_video_id (url v2) = ret (Some video_id) ->
       video_id <> "" ->
       (forall v, In v back ->
                  extract_video_id (url v) <> ret (Some video_id)) ->
       exists r,
         In r rows /\ r_video_id r = video_id
         /\ r_nickname r = nickname v2 /\ r_url r = url v2
         /\ (forall r', In r' rows -> r_video_id r' = video_id -> r' = r).
Proof.
  intros Hrows. apply main_writes in Hrows.
  destruct Hrows as [api_key [videos0 [m [ids [Hread [Hcollect Hrows]]]]]].
  pose proof (results_after_NoDup (build w api_key) ids (length (batches ids)))
    as Hnd.
  set (metrics := results_after (build w api_key) ids (length (batches ids))) in *.
  assert (Hperm : Permutation rows (map (combined_row m) metrics)).
  { subst rows. apply sort_rows_perm. }
  assert (Hids : map r_video_id (map (combined_row m) metrics)
                 = dict_keys metrics).
  { unfold dict_keys. rewrite map_map. apply map_ext. now intros [k o]. }
  split.
  - apply (Permutation_NoDup (l := map r_video_id (map (combined_row m) metrics))).
    + apply Permutation_map. now apply Permutation_sym.
    + now rewrite Hids.
  - intros videos front v1 middle v2 back video_id Hr Hsplit _ Hv2 Hne Hback.
    rewrite Hr in Hread. simpl in Hread. inversion Hread. subst videos0.
    subst videos.
    replace (front ++ v1 :: middle ++ v2 :: back)
      with ((front ++ v1 :: middle) ++ v2 :: back) in Hcollect
      by (now rewrite <- app_assoc).
    destruct (collect_last video_id v2 back (front ++ v1 :: middle)
                [] m [] ids Hcollect) as [Hget Hin].
    { now rewrite Hv2. }
    { exact Hne. }
    { intros v Hv Hx. apply (Hback v Hv). now apply extract_video_id_ret. }
    assert (Hmem : dict_mem video_id metrics = true).
    { now apply results_after_all_mem. }
    unfold dict_mem in Hmem.
    destruct (dict_get video_id metrics) as [o|] eqn:Ho; [|discriminate].
    exists (combined_row m (video_id, o)).
    split; [|split; [|split; [|split]]].
    + apply (Permutation_in _ (Permutation_sym Hperm)).
      apply in_map. now apply dict_get_In.
    + reflexivity.
    + simpl. now rewrite Hget.
    + simpl. now rewrite Hget.
    + intros r' Hr' Hid.
      apply (Permutation_in _ Hperm) in Hr'. apply in_map_iff in Hr'.
      destruct Hr' as [[k o'] [Heq Hko]]. subst r'. simpl in Hid. subst k.
      apply (dict_In_get _ _ _ Hnd) in Hko. congruence.
Qed.

Lemma one_row_per_identifier_witness :
  let rows := hd [] (writes_of (fst (main (L := plain_urllib) world_twins))) in
  NoDup (map r_video_id rows)
  /\ exists r,
       In r rows /\ r_video_id r = "abc"
       /\ r_nickname r = "second"
       /\ r_url r = "https://youtube.com/shorts/abc?feature=share"
       /\ (forall r', In r' rows -> r_video_id r' = "abc" -> r' = r).
Proof.
  intros rows.
  destruct (one_row_per_identifier (L := plain_urllib) world_twins rows
              ltac:(vm_compute; left; reflexivity)) as [Hnd H].
  split; [exact Hnd|].
  pose (v1 := {| nickname := "first";
                 url := "https://www.youtube.com/shorts/abc" |}).
  pose (v2 := {| nickname := "second";
                 url := "https://youtube.com/shorts/abc?feature=share" |}).
  apply (H [v1; v2] [] v1 [] v2 [] "abc");
    try reflexivity; [discriminate | intros v []].
Defined.

(** The claim C6 as it is worded fails: two input rows that resolve to the
    same identifier give one row of the report, not two. *)
Lemma one_row_per_identifier_counterexample :
  read_input_csv (fs world_twins) INPUT_CSV
  = ret [ {| nickname := "first"; url := "https://www.youtube.com/shorts/abc" |};
          {| nickname := "second";
             url := "https://youtube.com/shorts/abc?feature=share" |} ]
  /\ extract_video_id (L := plain_urllib) "https://www.youtube.com/shorts/abc"
     = ret (Some "abc")
  /\ extract_video_id (L := plain_urllib)
       "https://youtube.com/shorts/abc?feature=share"
     = ret (Some "abc")
  /\ exists row,
       writes_of (fst (main (L := plain_urllib) world_twins)) = [[row]]
       /\ r_nickname row = "second".
Proof.
  split; [reflexivity|]. split; [reflexivity|]. split; [reflexivity|].
  eexists. split; [vm_compute; reflexivity | reflexivity].
Qed.

(** C9, as the code has it.  When the key file is missing, or holds nothing
    but whitespace, [main] makes no request and writes no file, and it
    returns normally, so that the exit status is 0; when the file is
    missing, the trace holds the message that says so. *)
Theorem missing_key_aborts {L : Urllib} (w : world) :
  (files (fs w) API_KEY_FILE = None
   \/ exists content, files (fs w) API_KEY_FILE = Some content
                      /\ strip is_space content = "") ->
  requests_of (fst (main w)) = []
  /\ writes_of (fst (main w)) = []
  /\ snd (main w) = Return tt
  /\ exit_status (main w) = 0
  /\ (files (fs w) API_KEY_FILE = None ->
      In (Print (nl +++ "Error: API key file '" +++ API_KEY_FILE
                 +++ "' not found."))
         (fst (main w))).
Proof.
  intros [Hnone|[content [Hsome Hblank]]];
    unfold exit_status, main, read_api_key.
  - rewrite Hnone. cbn. repeat split. intros _. right. now left.
  - rewrite Hsome, Hblank. cbn. repeat split. intros H. discriminate.
Qed.

Lemma missing_key_aborts_witness :
  (requests_of (fst (main (L := plain_urllib) world_without_key)) = []
   /\ writes_of (fst (main (L := plain_urllib) world_without_key)) = []
   /\ snd (main (L := plain_urllib) world_without_key) = Return tt)
  /\ (requests_of (fst (main (L := plain_urllib) world_blank_key)) = []
      /\ writes_of (fst (main (L := plain_urllib) world_blank_key)) = []
      /\ snd (main (L := plain_urllib) world_blank_key) = Return tt).
Proof.
  split.
  - destruct (missing_key_aborts (L := plain_urllib) world_without_key
                (or_introl eq_refl)) as [H1 [H2 [H3 _]]].
    auto.
  - destruct (missing_key_aborts (L := plain_urllib) world_blank_key
                (or_intror (ex_intro _ ("  " +++ nl) (conj eq_refl eq_refl))))
      as [H1 [H2 [H3 _]]].
    auto.
Defined.

(** The claim C9 as it is worded fails: without the key file the run ends
    with exit status 0, not with a non-zero status. *)
Lemma missing_key_aborts_counterexample :
  files (fs world_without_key) API_KEY_FILE = None
  /\ exit_status (main (L := plain_urllib) world_without_key) = 0
  /\ strip is_space ("  " +++ nl) = ""
  /\ exit_status (main (L := plain_urllib) world_blank_key) = 0.
Proof. repeat split. Qed.

(* ====================================================================== *)
(** * Further properties: the key and the identifiers *)
(* ====================================================================== *)

Lemma lstrip_first (p : ascii -> bool) (s : string) (c : ascii) :
  first_char (lstrip p s) = Some c -> p c = false.
Proof.
  induction s as [|a s IH]; simpl; [discriminate|].
  destruct (p a) eqn:E; [exact IH|].
  simpl. intros H. inversion H. now subst.
Qed.

Lemma rstrip_last (p : ascii -> bool) (s : string) (c : ascii) :
  last_char (rstrip p s) = Some c -> p c = false.
Proof.
  induction s as [|a s IH]; simpl; [discriminate|].
  destruct (rstrip p s) as [|b r] eqn:E.
  - destruct (p a) eqn:Ea; simpl; [discriminate|].
    intros H. inversion H. now subst.
  - simpl. exact IH.
Qed.

Lemma rstrip_first (p : ascii -> bool) (s : string) (c : ascii) :
  (forall a, first_char s = Some a -> p a = false) ->
  first_char (rstrip p s) = Some c -> first_char s = Some c.
Proof.
  destruct s as [|a s]; simpl; [discriminate|]. intros Hs.
  destruct (rstrip p s) as [|b r].
  - rewrite (Hs a eq_refl). simpl. auto.
  - simpl. auto.
Qed.

(** A stripped string neither begins nor ends with a stripped character. *)
Lemma strip_trimmed (p : ascii -> bool) (s : string) : trimmed p (strip p s).
Proof.
  unfold trimmed, strip. split.
  - intros c Hc. apply (lstrip_first p s).
    apply (rstrip_first p _ c); [|exact Hc].
    intros a. apply lstrip_first.
  - apply rstrip_last.
Qed.

Lemma lstrip_id (p : ascii -> bool) (s : string) :
  (forall c, first_char s = Some c -> p c = false) -> lstrip p s = s.
Proof.
  destruct s as [|a s]; simpl; [reflexivity|].
  intros H. now rewrite (H a eq_refl).
Qed.

Lemma rstrip_id (p : ascii -> bool) (s : string) :
  (forall c, last_char s = Some c -> p c = false) -> rstrip p s = s.
Proof.
  induction s as [|a s IH]; simpl; [reflexivity|]. intros H.
  destruct s as [|b s].
  - simpl. now rewrite (H a eq_refl).
  - rewrite IH by exact H. reflexivity.
Qed.

(** Stripping a second time changes nothing. *)
Lemma strip_idempotent (p : ascii -> bool) (s : string) :
  strip p (strip p s) = strip p s.
Proof.
  destruct (strip_trimmed p s) as [Hf Hl].
  unfold strip at 1. rewrite lstrip_id by exact Hf. now apply rstrip_id.
Qed.

(** X1.  [read_api_key] returns a key exactly when the file exists and its
    content is not blank; the key is the content without the whitespace
    around it, it is not empty, it neither begins nor ends with whitespace,
    and nothing is printed. *)
Theorem read_api_key_returns (fs : filesystem) (filename api_key : string) :
  snd (read_api_key fs filename) = Return api_key <->
  exists content,
    files fs filename = Some content
    /\ api_key = strip is_space content
    /\ api_key <> ""
    /\ trimmed is_space api_key
    /\ strip is_space api_key = api_key
    /\ read_api_key fs filename = ret api_key.
Proof.
  unfold read_api_key. split.
  - destruct (files fs filename) as [content|]; [|discriminate].
    destruct (is_empty (strip is_space content)) eqn:E; [discriminate|].
    intros H. inversion H. exists content.
    repeat split.
    + now apply is_empty_false.
    + apply strip_trimmed.
    + apply strip_trimmed.
    + apply strip_idempotent.
  - intros [content [Hf [Hk [Hne _]]]]. rewrite Hf. subst api_key.
    apply is_empty_false in Hne. now rewrite Hne.
Qed.

Lemma read_api_key_returns_witness :
  exists content,
    files (fs world_three) API_KEY_FILE = Some content
    /\ "KEY" = strip is_space content
    /\ "KEY" <> ""
    /\ trimmed is_space "KEY"
    /\ strip is_space "KEY" = "KEY"
    /\ read_api_key (fs world_three) API_KEY_FILE = ret "KEY".
Proof.
  apply (proj1 (read_api_key_returns (fs world_three) API_KEY_FILE "KEY")).
  reflexivity.
Defined.

Lemma drop_prefix_some (pat s rest : string) :
  drop_prefix pat s = Some rest -> s = pat +++ rest.
Proof.
  revert s. induction pat as [|a pat IH]; intros s; simpl.
  - intros H. now inversion H.
  - destruct s as [|b s]; [discriminate|].
    destruct (Ascii.eqb a b) eqn:E; [|discriminate].
    apply Ascii.eqb_eq in E. subst b. intros H. f_equal. now apply IH.
Qed.

Lemma take_drop_while (p : ascii -> bool) (s : string) :
  s = take_while p s +++ drop_while p s
  /\ all_chars p (take_while p s) = true
  /\ take_while p (drop_while p s) = "".
Proof.
  induction s as [|c s [IH1 [IH2 IH3]]]; simpl; [auto|].
  destruct (p c) eqn:E; simpl.
  - rewrite E. repeat split; [now f_equal | exact IH2 | exact IH3].
  - now rewrite E.
Qed.

Lemma match_shorts_sound (s g : string) :
  match_shorts s = Some g ->
  exists rest, s = "/shorts/" +++ g +++ rest
               /\ all_chars is_id_char g = true
               /\ take_while is_id_char rest = "".
Proof.
  unfold match_shorts.
  destruct (drop_prefix "/shorts/" s) as [tail|] eqn:E; [|discriminate].
  destruct (is_empty (take_while is_id_char tail)); [discriminate|].
  intros H. inversion H. subst g. apply drop_prefix_some in E.
  destruct (take_drop_while is_id_char tail) as [H1 [H2 H3]].
  exists (drop_while is_id_char tail). repeat split; [|exact H2|exact H3].
  rewrite E at 1. now rewrite H1 at 1.
Qed.

(** X3.  When the shorts pattern matches, the identifier [extract_video_id]
    returns stands in the URL right after a [/shorts/], it is a non-empty
    run of characters of [[A-Za-z0-9_-]], and the run ends there. *)
Theorem shorts_identifier {L : Urllib} (url g : string) :
  shorts_match url = Some g ->
  extract_video_id url = ret (Some g)
  /\ g <> ""
  /\ all_chars is_id_char g = true
  /\ exists pre rest,
       url = pre +++ "/shorts/" +++ g +++ rest
       /\ take_while is_id_char rest = "".
Proof.
  intros H. split; [unfold extract_video_id; now rewrite H|].
  split; [eapply shorts_match_nonempty, H|].
  revert H. induction url as [|c url IH]; rewrite shorts_match_eq.
  - destruct (match_shorts "") eqn:E; [|discriminate].
    intros H. inversion H. subst. apply match_shorts_sound in E.
    destruct E as [rest [H1 [H2 H3]]].
    split; [exact H2|]. exists "", rest. auto.
  - destruct (match_shorts (String c url)) eqn:E.
    + intros H. inversion H. subst. apply match_shorts_sound in E.
      destruct E as [rest [H1 [H2 H3]]].
      split; [exact H2|]. exists "", rest. auto.
    + intros H. destruct (IH H) as [H2 [pre [rest [H1 H3]]]].
      split; [exact H2|]. exists (String c pre), rest.
      split; [simpl; now f_equal | exact H3].
Qed.

Lemma shorts_identifier_witness :
  extract_video_id (L := plain_urllib)
    "https://www.youtube.com/shorts/a-b_9/extra" = ret (Some "a-b_9")
  /\ "a-b_9" <> ""
  /\ all_chars is_id_char "a-b_9" = true
  /\ exists pre rest,
       "https://www.youtube.com/shorts/a-b_9/extra"
       = pre +++ "/shorts/" +++ "a-b_9" +++ rest
       /\ take_while is_id_char rest = "".
Proof.
  apply (shorts_identifier (L := plain_urllib)). reflexivity.
Defined.

Lemma shorts_match_contains (url g : string) :
  shorts_match url = Some g -> contains "/shorts/" url = true.
Proof.
  induction url as [|c url IH]; rewrite shorts_match_eq, contains_eq;
    unfold match_shorts.
  - destruct (drop_prefix "/shorts/" ""); [reflexivity | discriminate].
  - destruct (drop_prefix "/shorts/" (String c url)); [reflexivity | exact IH].
Qed.

(** X4.  A string that contains none of [/shorts/], [youtu.be/] and
    [youtube.com/watch] has no identifier: [extract_video_id] returns
    [None], without calling [urlparse]. *)
Theorem unrecognized_url {L : Urllib} (url : string) :
  contains "/shorts/" url = false ->
  contains "youtu.be/" url = false ->
  contains "youtube.com/watch" url = false ->
  extract_video_id url = ret None.
Proof.
  intros Hs Hy Hw. unfold extract_video_id.
  destruct (shorts_match url) as [g|] eqn:E.
  - apply shorts_match_contains in E. congruence.
  - now rewrite Hy, Hw.
Qed.

Lemma unrecognized_url_witness :
  extract_video_id (L := plain_urllib) "not-a-youtube-link" = ret None
  /\ extract_video_id (L := plain_urllib) "https://vimeo.com/watch?v=abc"
     = ret None.
Proof.
  split; apply (unrecognized_url (L := plain_urllib)); reflexivity.
Defined.

(** X5.  Under the [youtu.be] rule the identifier is the path of the parsed
    URL without the slashes around it: it is not empty and neither begins
    nor ends with a slash; a path made of slashes only gives [None], and an
    exception of [urlparse] is passed on. *)
Theorem youtu_be_identifier {L : Urllib} (url : string) :
  shorts_match url = None ->
  contains "youtu.be/" url = true ->
  match urlparse url with
  | Return parsed =>
      let video_id := strip is_slash (path parsed) in
      trimmed is_slash video_id
      /\ (video_id <> "" -> extract_video_id url = ret (Some video_id))
      /\ (video_id = "" -> extract_video_id url = ret None)
  | Raise e => extract_video_id url = raise e
  end.
Proof.
  intros Hs Hy. unfold extract_video_id, youtu_be_rule. rewrite Hs, Hy.
  destruct (urlparse url) as [parsed|e]; [|reflexivity].
  cbv zeta. split; [apply strip_trimmed|]. split.
  - intros H. apply is_empty_false in H. now rewrite H.
  - intros H. now rewrite H.
Qed.

Lemma youtu_be_identifier_witness :
  extract_video_id (L := plain_urllib) "https://youtu.be//xyz789/?t=3"
  = ret (Some "xyz789")
  /\ extract_video_id (L := plain_urllib) "https://youtu.be///" = ret None.
Proof.
  split.
  - pose proof (youtu_be_identifier (L := plain_urllib)
                  "https://youtu.be//xyz789/?t=3" eq_refl eq_refl) as H.
    vm_compute in H. destruct H as [_ [H _]].
    vm_compute. apply H. discriminate.
  - pose proof (youtu_be_identifier (L := plain_urllib)
                  "https://youtu.be///" eq_refl eq_refl) as H.
    vm_compute in H. destruct H as [_ [_ H]].
    vm_compute. apply H. reflexivity.
Defined.

(* ====================================================================== *)
(** * Further properties: the rounds of [get_video_metrics] *)
(* ====================================================================== *)

Lemma range_from_nth (step stop fuel : nat) :
  0 < step ->
  forall i k,
    stop - i <= fuel ->
    nth_error (range_from fuel i stop step) k
    = if i + k * step <? stop then Some (i + k * step) else None.
Proof.
  intros Hstep. induction fuel as [|fuel IH]; intros i k Hfuel; simpl.
  - assert (H : (i + k * step <? stop) = false) by (apply Nat.ltb_ge; lia).
    rewrite H. now destruct k.
  - destruct (i <? stop) eqn:E.
    + destruct k as [|k]; simpl.
      * rewrite Nat.add_0_r. now rewrite E.
      * rewrite IH by lia.
        now replace (i + step + k * step) with (i + (step + k * step)) by lia.
    + apply Nat.ltb_ge in E.
      assert (H : (i + k * step <? stop) = false) by (apply Nat.ltb_ge; lia).
      rewrite H. now destruct k.
Qed.

(** X6.  Round [k] of the loop exists exactly when [50 * k] is below the
    number of identifiers, and its batch is the 50 identifiers from position
    [50 * k] on, or those that are left. *)
Theorem batches_nth (video_ids : list string) (k : nat) :
  nth_error (batches video_ids) k
  = if 50 * k <? length video_ids
    then Some (firstn 50 (skipn (50 * k) video_ids))
    else None.
Proof.
  unfold batches, range, batch_size.
  rewrite nth_error_map, range_from_nth by lia. simpl (0 + _).
  replace (k * 50) with (50 * k) by lia.
  destruct (50 * k <? length video_ids); [|reflexivity].
  cbn [option_map]. unfold slice.
  now replace (50 * k + 50 - 50 * k) with 50 by lia.
Qed.

Lemma rounds_trace (youtube : remote_service) (bs : list (list string)) :
  forall (n : nat) (results : dict MetricsOutcome),
    fst (rounds youtube n bs results)
    = flat_map (round_events youtube) (combine (seq n (length bs)) bs).
Proof.
  induction bs as [|batch bs IH]; intros n results; simpl.
  - reflexivity.
  - rewrite fst_bind.
    destruct (round_spec youtube n batch results) as [Hs _]. rewrite Hs.
    rewrite IH. f_equal. unfold round, round_events. simpl.
    now destruct (youtube n (join "," batch)).
Qed.

(** X8.  The trace of [get_video_metrics] is, round after round, the request
    for the batch, followed by one line [Error retrieving batch: ...] exactly
    when that request failed; nothing else is printed and no request is made
    twice. *)
Theorem get_video_metrics_trace (build : string -> remote_service)
  (video_ids : list string) (api_key : string) :
  fst (get_video_metrics build video_ids api_key)
  = flat_map (round_events (build api_key)) (numbered video_ids)
  /\ ((forall n id, exists items, build api_key n id = Response items) ->
      fst (get_video_metrics build video_ids api_key)
      = map (fun batch => Request part (join "," batch)) (batches video_ids)).
Proof.
  assert (H : fst (get_video_metrics build video_ids api_key)
              = flat_map (round_events (build api_key)) (numbered video_ids)).
  { unfold get_video_metrics. apply rounds_trace. }
  split; [exact H|]. intros Hok. rewrite H. unfold numbered.
  generalize 0. induction (batches video_ids) as [|b bs IH]; intros n; simpl.
  - reflexivity.
  - rewrite IH. unfold round_events. simpl.
    destruct (Hok n (join "," b)) as [items Hitems]. now rewrite Hitems.
Qed.

Lemma get_video_metrics_trace_witness :
  fst (get_video_metrics (fun _ => catalogue (sample_videos 3))
                         (sample_ids 60) "KEY")
  = map (fun batch => Request part (join "," batch)) (batches (sample_ids 60)).
Proof.
  apply (proj2 (get_video_metrics_trace (fun _ => catalogue (sample_videos 3))
                  (sample_ids 60) "KEY")).
  intros n id. eexists. reflexivity.
Defined.

(* ====================================================================== *)
(** * Further properties: the input table and the report *)
(* ====================================================================== *)

Lemma truthy_or_else (a b : option string) :
  truthy (or_else a b) = match truthy a with Some s => Some s | None => truthy b end.
Proof. destruct a as [[|c s]|]; reflexivity. Qed.

Lemma truthy_get (column : string) (row : dict string) :
  truthy (dict_get column row) = first_filled [column] row.
Proof. simpl. now destruct (dict_get column row) as [[|c s]|]. Qed.

(** X9.  A row of the input gives a video exactly when one of the columns
    [Link], [link], [URL], [url] holds a non-empty string; the first such
    column, in this order, gives the URL, stripped of the whitespace around
    it; the nickname is the first non-empty of [Nickname] and [nickname],
    and [N/A] when there is none. *)
Theorem read_row_columns (row : dict string) :
  read_row row
  = match first_filled ["Link"; "link"; "URL"; "url"] row with
    | Some link =>
        [ {| nickname :=
               match first_filled ["Nickname"; "nickname"] row with
               | Some n => n
               | None => "N/A"
               end;
             url := strip is_space link |} ]
    | None => []
    end.
Proof.
  unfold read_row. rewrite !truthy_or_else, !truthy_get. simpl.
  destruct (dict_get "Link" row) as [[|c1 s1]|];
    destruct (dict_get "link" row) as [[|c2 s2]|];
    destruct (dict_get "URL" row) as [[|c3 s3]|];
    destruct (dict_get "url" row) as [[|c4 s4]|];
    destruct (dict_get "Nickname" row) as [[|c5 s5]|];
    destruct (dict_get "nickname" row) as [[|c6 s6]|];
    reflexivity.
Qed.

Lemma read_row_wellformed (row : dict string) (v : InputRecord) :
  In v (read_row row) -> nickname v <> "" /\ trimmed is_space (url v).
Proof.
  unfold read_row. destruct (truthy _) as [link|]; [|intros []].
  intros [H|[]]. subst v. simpl. split; [|apply strip_trimmed].
  destruct (truthy (or_else _ _)) as [n|] eqn:E; [|discriminate].
  apply truthy_some in E. tauto.
Qed.

(** X10.  [read_input_csv] raises [FileNotFoundError] for a missing table
    and prints nothing; for a table it returns the videos of the rows in
    their order, at most one for each row, each with a non-empty nickname
    and a URL without whitespace around it. *)
Theorem read_input_csv_records (fs : filesystem) (filename : string) :
  match tables fs filename with
  | None => read_input_csv fs filename = raise FileNotFoundError
  | Some reader =>
      exists videos,
        read_input_csv fs filename = ret videos
        /\ videos = flat_map read_row reader
        /\ length videos <= length reader
        /\ (forall v, In v videos ->
                      nickname v <> "" /\ trimmed is_space (url v))
  end.
Proof.
  unfold read_input_csv. destruct (tables fs filename) as [reader|];
    [|reflexivity].
  exists (flat_map read_row reader).
  split; [reflexivity|]. split; [reflexivity|]. split.
  - induction reader as [|row reader IH]; simpl; [lia|].
    rewrite length_app. rewrite read_row_columns at 1.
    destruct (first_filled _ row); simpl; lia.
  - intros v H. apply in_flat_map in H. destruct H as [row [_ H]].
    now apply read_row_wellformed in H.
Qed.

Lemma rows_dated_insert (d : string) (x : ReportRow) (l : list ReportRow) :
  rows_dated d (insert_row x l) = rows_dated d (x :: l).
Proof.
  unfold rows_dated. induction l as [|y l IH]; simpl; [reflexivity|].
  destruct (String.ltb (r_upload_date y) (r_upload_date x)) eqn:E;
    [|reflexivity].
  simpl. rewrite IH. simpl.
  destruct (String.eqb (r_upload_date x) d) eqn:Ex; [|reflexivity].
  destruct (String.eqb (r_upload_date y) d) eqn:Ey; [|reflexivity].
  apply String.eqb_eq in Ex, Ey. rewrite Ex, Ey in E.
  unfold String.ltb in E.
  assert (Hc : String.compare d d = Eq).
  { pose proof (String.compare_antisym d d) as Ha.
    destruct (String.compare d d); simpl in Ha; congruence. }
  rewrite Hc in E. discriminate.
Qed.

(** X11.  The sort of the report is stable: the rows with one and the same
    [upload_date], those of the placeholder [N/A] among them, stand in the
    report in the order of the entries of the outcome mapping. *)
Theorem output_data_stable (video_id_map : dict InputRecord)
  (metrics : dict MetricsOutcome) (d : string) :
  rows_dated d (output_data video_id_map metrics)
  = rows_dated d (map (combined_row video_id_map) metrics).
Proof.
  unfold output_data.
  induction (map (combined_row video_id_map) metrics) as [|x l IH]; simpl.
  - reflexivity.
  - rewrite rows_dated_insert. unfold rows_dated in *. simpl.
    now rewrite IH.
Qed.

(* ====================================================================== *)
(** * Further properties: [main] *)
(* ====================================================================== *)

Lemma read_api_key_ret (fs : filesystem) (filename api_key : string) :
  snd (read_api_key fs filename) = Return api_key ->
  read_api_key fs filename = ret api_key.
Proof.
  unfold read_api_key. destruct (files fs filename) as [content|];
    [|discriminate].
  destruct (is_empty (strip is_space content)); [discriminate|].
  intros H. inversion H. reflexivity.
Qed.

Lemma write_output_csv_returns (filename : string) (data : list ReportRow) :
  snd (write_output_csv filename data) = Return tt
  /\ requests_of (fst (write_output_csv filename data)) = []
  /\ writes_of (fst (write_output_csv filename data))
     = match data with [] => [] | _ :: _ => [data] end.
Proof. destruct data; simpl; auto. Qed.

(** [main] when the key, the table and the identifiers are there. *)
Lemma main_eq {L : Urllib} (w : world) (api_key : string)
  (videos : list InputRecord) (evc evm : list event)
  (video_id_map : dict InputRecord) (video_ids : list string)
  (metrics : dict MetricsOutcome) :
  read_api_key (fs w) API_KEY_FILE = ret api_key ->
  read_input_csv (fs w) INPUT_CSV = ret videos ->
  collect videos [] [] = (evc, Return (video_id_map, video_ids)) ->
  get_video_metrics (build w) video_ids api_key = (evm, Return metrics) ->
  main w
  = ([Print ("Loading API key from: " +++ API_KEY_FILE);
      Print "API key loaded successfully";
      Print (nl +++ "Reading input file: " +++ INPUT_CSV);
      Print ("Found " +++ show (length videos) +++ " videos to process")]
     ++ evc
     ++ [Print ("Successfully extracted " +++ show (length video_ids)
                +++ " video IDs")]
     ++ match video_ids with
        | [] => [Print "No valid video IDs found. Exiting."]
        | _ :: _ =>
            [Print "Retrieving metrics from YouTube API..."]
            ++ evm
            ++ [Print ("Retrieved metrics for " +++ show (length metrics)
                       +++ " videos");
                Print ("Writing output file: " +++ OUTPUT_CSV (current_date w))]
            ++ fst (write_output_csv (OUTPUT_CSV (current_date w))
                      (output_data video_id_map metrics))
        end,
     Return tt).
Proof.
  intros Hk Hv Hc Hg. unfold main. rewrite Hk.
  cbn [bind try print ret raise fst snd app]. rewrite Hv.
  cbn [bind try print ret raise fst snd app]. rewrite Hc.
  cbn [bind try print ret raise fst snd app].
  destruct video_ids as [|video_id video_ids].
  - reflexivity.
  - rewrite Hg. cbn [bind try print ret raise fst snd app].
    destruct (write_output_csv_returns (OUTPUT_CSV (current_date w))
                (output_data video_id_map metrics)) as [Hw _].
    destruct (write_output_csv _ _) as [evw rw]. simpl in Hw. subst rw.
    reflexivity.
Qed.

(** What the loop of [main] returns, when it returns. *)
Lemma collect_returns {L : Urllib} (videos : list InputRecord) :
  forall (video_id_map video_id_map' : dict InputRecord)
         (video_ids video_ids' : list string),
    snd (collect videos video_id_map video_ids)
    = Return (video_id_map', video_ids') ->
    video_ids' = video_ids ++ resolved_ids videos
    /\ (forall video_id,
          dict_mem video_id video_id_map'
          = dict_mem video_id video_id_map || mem video_id (resolved_ids videos))
    /\ (forall video_id v,
          dict_get video_id video_id_map' = Some v ->
          dict_get video_id video_id_map = Some v
          \/ (In v videos
              /\ snd (extract_video_id (url v)) = Return (Some video_id))).
Proof.
  induction videos as [|video videos IH];
    intros video_id_map video_id_map' video_ids video_ids' Hc.
  - simpl in Hc. inversion Hc. subst. simpl. rewrite app_nil_r.
    split; [reflexivity|]. split; [intros; now rewrite orb_false_r | auto].
  - rewrite collect_cons, snd_bind in Hc. unfold resolved_ids. simpl.
    fold (resolved_ids videos).
    destruct (snd (extract_video_id (url video))) as [x|e] eqn:Ex;
      [|discriminate].
    destruct (truthy x) as [found_id|] eqn:Et.
    + destruct (IH _ _ _ _ Hc) as [Hids [Hmem Hget]].
      apply truthy_some in Et. destruct Et as [Hx _]. subst x.
      split; [now rewrite Hids, <- app_assoc|]. split.
      * intros video_id. rewrite Hmem, dict_mem_set. simpl.
        destruct (String.eqb video_id found_id), (dict_mem video_id video_id_map);
          reflexivity.
      * intros video_id v Hv. destruct (Hget _ _ Hv) as [H|[H1 H2]].
        -- rewrite dict_get_set in H.
           destruct (String.eqb video_id found_id) eqn:E; [|now left].
           apply String.eqb_eq in E. inversion H. subst. right.
           split; [now left | exact Ex].
        -- right. split; [now right | exact H2].
    + rewrite snd_bind in Hc. simpl in Hc.
      destruct (IH _ _ _ _ Hc) as [Hids [Hmem Hget]].
      split; [exact Hids|]. split; [exact Hmem|].
      intros video_id v Hv. destruct (Hget _ _ Hv) as [H|[H1 H2]];
        [now left | right; split; [now right | exact H2]].
Qed.

(** The loop of [main] returns when [extract_video_id] raises for no
    video. *)
Lemma collect_no_raise {L : Urllib} (videos : list InputRecord) :
  (forall v, In v videos ->
             exists x, snd (extract_video_id (url v)) = Return x) ->
  forall (video_id_map : dict InputRecord) (video_ids : list string),
    exists video_id_map',
      snd (collect videos video_id_map video_ids)
      = Return (video_id_map', video_ids ++ resolved_ids videos).
Proof.
  induction videos as [|video videos IH]; intros Hok video_id_map video_ids.
  - exists video_id_map. simpl. now rewrite app_nil_r.
  - assert (Hrest : forall v, In v videos ->
               exists x, snd (extract_video_id (url v)) = Return x).
    { intros v Hv. apply Hok. now right. }
    destruct (Hok video (or_introl eq_refl)) as [x Hx].
    rewrite collect_cons, snd_bind, Hx.
    change (resolved_ids (video :: videos))
      with (match snd (extract_video_id (url video)) with
            | Return x =>
                match truthy x with Some video_id => [video_id] | None => [] end
            | Raise _ => []
            end ++ resolved_ids videos).
    rewrite Hx.
    destruct (truthy x) as [found_id|].
    + destruct (IH Hrest (dict_set found_id video video_id_map)
                  (video_ids ++ [found_id])) as [m' Hm'].
      exists m'. now rewrite Hm', <- app_assoc.
    + rewrite snd_bind. cbn [print snd app]. apply IH, Hrest.
Qed.

Lemma metrics_nonempty (youtube : remote_service) (video_id : string)
  (video_ids : list string) (video_id_map : dict InputRecord) :
  output_data video_id_map
    (results_after youtube (video_id :: video_ids)
       (length (batches (video_id :: video_ids)))) <> [].
Proof.
  intros H.
  pose proof (results_after_all_mem youtube (video_id :: video_ids) video_id
                (or_introl eq_refl)) as Hmem.
  assert (Hlen : length (output_data video_id_map
                   (results_after youtube (video_id :: video_ids)
                      (length (batches (video_id :: video_ids))))) = 0).
  { now rewrite H. }
  unfold output_data in Hlen.
  rewrite (Permutation_length (sort_rows_perm _)), length_map in Hlen.
  destruct (results_after youtube (video_id :: video_ids) _); [|discriminate].
  discriminate.
Qed.

(** X12.  When the key is read and [extract_video_id] raises for no row of
    the table, the requests of [main] are the batches of the identifiers of
    the rows, in the order of the rows and with their repetitions; without
    any identifier [main] makes no request, writes no file, prints
    [No valid video IDs found. Exiting.] and returns. *)
Theorem main_requests {L : Urllib} (w : world) (api_key : string)
  (videos : list InputRecord) :
  snd (read_api_key (fs w) API_KEY_FILE) = Return api_key ->
  read_input_csv (fs w) INPUT_CSV = ret videos ->
  (forall v, In v videos ->
             exists x, snd (extract_video_id (url v)) = Return x) ->
  requests_of (fst (main w))
  = map (join ",") (batches (resolved_ids videos))
  /\ (resolved_ids videos = [] ->
      snd (main w) = Return tt
      /\ exit_status (main w) = 0
      /\ writes_of (fst (main w)) = []
      /\ In (Print "No valid video IDs found. Exiting.") (fst (main w))).
Proof.
  intros Hk Hv Hok. apply read_api_key_ret in Hk.
  destruct (collect_no_raise videos Hok [] []) as [m Hm]. simpl in Hm.
  destruct (collect_trace videos [] []) as [Hcr Hcw].
  destruct (collect videos [] []) as [evc rc] eqn:Ec. simpl in Hm, Hcr, Hcw.
  subst rc.
  destruct (get_video_metrics_spec (build w) (resolved_ids videos) api_key)
    as [evm [Hg [Hr Hw]]].
  rewrite (main_eq w api_key videos evc evm m _ _ Hk Hv Ec Hg).
  unfold exit_status. cbn [fst snd].
  destruct (resolved_ids videos) as [|video_id video_ids] eqn:Eids.
  - split.
    + simpl. rewrite !requests_of_app, Hcr. reflexivity.
    + intros _. split; [reflexivity|]. split; [reflexivity|]. split.
      * simpl. rewrite !writes_of_app, Hcw. reflexivity.
      * simpl. do 4 right. apply in_or_app. right. right. now left.
  - destruct (write_output_csv_returns (OUTPUT_CSV (current_date w))
                (output_data m (results_after (build w api_key)
                                  (video_id :: video_ids)
                                  (length (batches (video_id :: video_ids))))))
      as [_ [Hwr _]].
    split; [|discriminate].
    repeat progress
      (rewrite ?requests_of_app; cbn [app requests_of]).
    rewrite Hcr, Hr, Hwr. simpl. now rewrite app_nil_r.
Qed.

Lemma main_requests_witness :
  requests_of (fst (main (L := plain_urllib) world_three))
  = ["late,gone,early"]
  /\ requests_of (fst (main (L := plain_urllib) world_unresolvable)) = []
  /\ writes_of (fst (main (L := plain_urllib) world_unresolvable)) = []
  /\ snd (main (L := plain_urllib) world_unresolvable) = Return tt.
Proof.
  destruct (main_requests (L := plain_urllib) world_three "KEY" _
              eq_refl eq_refl) as [Hr _].
  { intros v [H|[H|[H|[]]]]; subst v; eexists; reflexivity. }
  destruct (main_requests (L := plain_urllib) world_unresolvable "KEY" _
              eq_refl eq_refl) as [Hr' Hw'].
  { intros v [H|[H|[]]]; subst v; eexists; reflexivity. }
  split; [exact Hr|]. split; [exact Hr'|].
  destruct (Hw' ltac:(vm_compute; reflexivity)) as [H1 [_ [H3 _]]].
  split; [exact H3 | exact H1].
Defined.

(** X13.  When the key is read and the input table is missing, [main] ends
    with the uncaught [FileNotFoundError] of [read_input_csv], that is with
    exit status 1, after no request and no written file. *)
Theorem missing_table_exits {L : Urllib} (w : world) (api_key : string) :
  snd (read_api_key (fs w) API_KEY_FILE) = Return api_key ->
  tables (fs w) INPUT_CSV = None ->
  snd (main w) = Raise FileNotFoundError
  /\ exit_status (main w) = 1
  /\ requests_of (fst (main w)) = []
  /\ writes_of (fst (main w)) = [].
Proof.
  intros Hk Ht. apply read_api_key_ret in Hk.
  unfold exit_status, main, read_input_csv. rewrite Hk.
  cbn [bind try print ret raise fst snd app]. rewrite Ht.
  cbn. repeat split.
Qed.

Lemma missing_table_exits_witness :
  snd (main (L := plain_urllib) world_without_table) = Raise FileNotFoundError
  /\ exit_status (main (L := plain_urllib) world_without_table) = 1
  /\ requests_of (fst (main (L := plain_urllib) world_without_table)) = []
  /\ writes_of (fst (main (L := plain_urllib) world_without_table)) = [].
Proof.
  apply (missing_table_exits (L := plain_urllib) world_without_table "KEY");
    reflexivity.
Defined.

Lemma collect_warnings {L : Urllib} (videos : list InputRecord) :
  (forall v, In v videos ->
             exists x, snd (extract_video_id (url v)) = Return x) ->
  forall (video_id_map : dict InputRecord) (video_ids : list string),
    fst (collect videos video_id_map video_ids) = warnings videos.
Proof.
  induction videos as [|video videos IH]; intros Hok video_id_map video_ids.
  - reflexivity.
  - assert (Hrest : forall v, In v videos ->
               exists x, snd (extract_video_id (url v)) = Return x).
    { intros v Hv. apply Hok. now right. }
    destruct (Hok video (or_introl eq_refl)) as [x Hx].
    rewrite collect_cons, fst_bind, extract_video_id_trace, Hx.
    change (warnings (video :: videos))
      with (match snd (extract_video_id (url video)) with
            | Return x =>
                match truthy x with
                | Some _ => []
                | None => [warning (url video)]
                end
            | Raise _ => []
            end ++ warnings videos).
    rewrite Hx. cbn [app].
    destruct (truthy x) as [found_id|].
    + now apply IH.
    + rewrite fst_bind. cbn [print fst snd app]. unfold warning.
      f_equal. now apply IH.
Qed.

(** X14.  When the key is read and [extract_video_id] raises for no row,
    [main] prints, right after the line that counts the videos, one warning
    for each row whose URL gives no identifier, in the order of the rows,
    and then the line that counts the identifiers. *)
Theorem unresolved_rows_warned {L : Urllib} (w : world) (api_key : string)
  (videos : list InputRecord) :
  snd (read_api_key (fs w) API_KEY_FILE) = Return api_key ->
  read_input_csv (fs w) INPUT_CSV = ret videos ->
  (forall v, In v videos ->
             exists x, snd (extract_video_id (url v)) = Return x) ->
  exists rest,
    fst (main w)
    = [Print ("Loading API key from: " +++ API_KEY_FILE);
       Print "API key loaded successfully";
       Print (nl +++ "Reading input file: " +++ INPUT_CSV);
       Print ("Found " +++ show (length videos) +++ " videos to process")]
      ++ warnings videos
      ++ Print ("Successfully extracted "
                +++ show (length (resolved_ids videos)) +++ " video IDs")
         :: rest.
Proof.
  intros Hk Hv Hok. apply read_api_key_ret in Hk.
  destruct (collect_no_raise videos Hok [] []) as [m Hm]. simpl in Hm.
  pose proof (collect_warnings videos Hok [] []) as Hw.
  destruct (collect videos [] []) as [evc rc] eqn:Ec. simpl in Hm, Hw.
  subst rc evc.
  destruct (get_video_metrics_spec (build w) (resolved_ids videos) api_key)
    as [evm [Hg _]].
  rewrite (main_eq w api_key videos _ evm m _ _ Hk Hv Ec Hg).
  cbn [fst]. eexists. reflexivity.
Qed.

Lemma unresolved_rows_warned_witness :
  exists rest,
    fst (main (L := plain_urllib) world_unresolvable)
    = [Print "Loading API key from: youtube_api_key.txt";
       Print "API key loaded successfully";
       Print (nl +++ "Reading input file: 2025_video_links.csv");
       Print "Found 2 videos to process";
       warning "not-a-youtube-link";
       warning "https://example.org/video";
       Print "Successfully extracted 0 video IDs"]
      ++ rest.
Proof.
  destruct (unresolved_rows_warned (L := plain_urllib) world_unresolvable "KEY"
              [ {| nickname := "Dave"; url := "not-a-youtube-link" |};
                {| nickname := "N/A"; url := "https://example.org/video" |} ]
              eq_refl eq_refl) as [rest H].
  { intros v [Hv|[Hv|[]]]; subst v; eexists; reflexivity. }
  exists rest. rewrite H. reflexivity.
Defined.

Lemma results_after_classified (youtube : remote_service)
  (video_ids : list string) (k : nat) :
  Forall (fun e => classified (snd e)) (results_after youtube video_ids k).
Proof. apply results_from_classified. constructor. Qed.

(** X15.  In a report that [main] writes, every identifier of an input row
    has a row; a row whose identifier comes from the input carries the
    nickname and the URL of an input row that resolves to it; a row whose
    identifier does not come from the input, which the service returned
    unasked, carries [N/A] for both. *)
Theorem report_rows {L : Urllib} (w : world) (rows : list ReportRow)
  (videos : list InputRecord) :
  In rows (writes_of (fst (main w))) ->
  read_input_csv (fs w) INPUT_CSV = ret videos ->
  (forall video_id, In video_id (resolved_ids videos) ->
                    exists r, In r rows /\ r_video_id r = video_id)
  /\ (forall r, In r rows -> In (r_video_id r) (resolved_ids videos) ->
                exists v, In v videos
                          /\ snd (extract_video_id (url v))
                             = Return (Some (r_video_id r))
                          /\ r_nickname r = nickname v /\ r_url r = url v)
  /\ (forall r, In r rows -> ~ In (r_video_id r) (resolved_ids videos) ->
                r_nickname r = "N/A" /\ r_url r = "N/A").
Proof.
  intros Hrows Hread. apply main_writes in Hrows.
  destruct Hrows as [api_key [videos0 [m [ids [Hread0 [Hcollect Hrows]]]]]].
  rewrite Hread in Hread0. simpl in Hread0. inversion Hread0. subst videos0.
  destruct (collect_returns videos [] m [] ids Hcollect) as [Hids [Hmem Hget]].
  simpl in Hids. subst ids.
  set (metrics := results_after (build w api_key) (resolved_ids videos)
                    (length (batches (resolved_ids videos)))) in *.
  assert (Hperm : Permutation rows (map (combined_row m) metrics)).
  { subst rows. apply sort_rows_perm. }
  assert (Hrow : forall r, In r rows ->
             exists k o, In (k, o) metrics /\ r = combined_row m (k, o)).
  { intros r Hr. apply (Permutation_in _ Hperm) in Hr.
    apply in_map_iff in Hr. destruct Hr as [[k o] [Heq Hko]].
    exists k, o. auto. }
  split; [|split].
  - intros video_id Hin.
    pose proof (results_after_all_mem (build w api_key) _ _ Hin) as Hm.
    unfold dict_mem in Hm. fold metrics in Hm.
    destruct (dict_get video_id metrics) as [o|] eqn:Ho; [|discriminate].
    exists (combined_row m (video_id, o)). split; [|reflexivity].
    apply (Permutation_in _ (Permutation_sym Hperm)).
    apply in_map. now apply dict_get_In.
  - intros r Hr Hin. destruct (Hrow r Hr) as [k [o [Hko Heq]]]. subst r.
    simpl in Hin. apply mem_In in Hin.
    pose proof (Hmem k) as Hk. rewrite Hin in Hk. simpl in Hk.
    unfold dict_mem in Hk.
    destruct (dict_get k m) as [v|] eqn:Hv; [|discriminate].
    destruct (Hget k v Hv) as [H|[H1 H2]]; [discriminate|].
    exists v. simpl. rewrite Hv. auto.
  - intros r Hr Hnot. destruct (Hrow r Hr) as [k [o [Hko Heq]]]. subst r.
    simpl in Hnot. apply mem_not_In in Hnot.
    pose proof (Hmem k) as Hk. rewrite Hnot in Hk. simpl in Hk.
    unfold dict_mem in Hk. simpl.
    destruct (dict_get k m); [discriminate | auto].
Qed.

Lemma report_rows_witness :
  let rows := hd [] (writes_of (fst (main (L := plain_urllib) world_three))) in
  (exists r, In r rows /\ r_video_id r = "gone")
  /\ map r_video_id rows = ["early"; "late"; "gone"].
Proof.
  intros rows.
  destruct (report_rows (L := plain_urllib) world_three rows _
              ltac:(vm_compute; left; reflexivity) eq_refl) as [H _].
  split; [|vm_compute; reflexivity].
  apply H. vm_compute. tauto.
Defined.

(** X16.  In a report that [main] writes, a row has an empty error column,
    or it has an error and the placeholder in each of its seven metrics
    columns. *)
Theorem report_rows_classified {L : Urllib} (w : world)
  (rows : list ReportRow) (r : ReportRow) :
  In rows (writes_of (fst (main w))) ->
  In r rows ->
  r_error r = ""
  \/ (r_error r <> ""
      /\ r_title r = "N/A" /\ r_channel_name r = "N/A"
      /\ r_upload_date r = "N/A" /\ r_view_count r = "0"
      /\ r_like_count r = "0" /\ r_comment_count r = "0"
      /\ r_duration r = "N/A").
Proof.
  intros Hrows Hr. apply main_writes in Hrows.
  destruct Hrows as [api_key [videos [m [ids [_ [_ Hrows]]]]]]. subst rows.
  unfold output_data in Hr.
  apply (Permutation_in _ (sort_rows_perm _)) in Hr.
  apply in_map_iff in Hr. destruct Hr as [[k o] [Heq Hko]]. subst r.
  pose proof (results_after_classified (build w api_key) ids
                (length (batches ids))) as Hc.
  rewrite Forall_forall in Hc. specialize (Hc _ Hko).
  unfold classified, holds_placeholders in Hc. simpl in Hc. simpl.
  destruct (error o) as [e|]; [right | now left].
  tauto.
Qed.

Lemma report_rows_classified_witness :
  let rows := hd [] (writes_of (fst (main (L := plain_urllib) world_three))) in
  map r_error rows = [""; ""; "Video not found (may be deleted or private)"]
  /\ Forall (fun r =>
               r_error r = ""
               \/ (r_error r <> ""
                   /\ r_title r = "N/A" /\ r_channel_name r = "N/A"
                   /\ r_upload_date r = "N/A" /\ r_view_count r = "0"
                   /\ r_like_count r = "0" /\ r_comment_count r = "0"
                   /\ r_duration r = "N/A"))
            rows.
Proof.
  intros rows. split; [vm_compute; reflexivity|].
  apply Forall_forall. intros r Hr.
  apply (report_rows_classified (L := plain_urllib) world_three rows r);
    [|exact Hr].
  vm_compute. left. reflexivity.
Defined.

Lemma read_input_csv_records_witness :
  exists videos,
    read_input_csv (fs world_unresolvable) INPUT_CSV = ret videos
    /\ length videos = 2
    /\ (forall v, In v videos ->
                  nickname v <> "" /\ trimmed is_space (url v)).
Proof.
  pose proof (read_input_csv_records (fs world_unresolvable) INPUT_CSV) as H.
  cbn [tables fs world_unresolvable] in H.
  destruct H as [videos [H1 [H2 [_ H4]]]].
  exists videos. split; [exact H1|]. split; [|exact H4].
  subst videos. reflexivity.
Defined.

(* ====================================================================== *)
(** * [get_video_metrics] on JSON responses *)
(* ====================================================================== *)

Lemma get_default_not_null (key default : string)
  (d : dict (option string)) :
  dict_get key d <> Some None -> get_default key (Some default) d <> None.
Proof.
  unfold get_default. destruct (dict_get key d) as [[s|]|]; intros H.
  - discriminate.
  - now contradiction H.
  - discriminate.
Qed.

Lemma json_found_built (it : json_item) (video_id : string) (o : json_outcome) :
  json_found it = Return (video_id, o) ->
  json_id it = Some video_id /\ j_error o = None /\ built_from it o.
Proof.
  unfold json_found, built_from.
  destruct (json_id it) as [i|]; [|discriminate].
  destruct (json_snippet it) as [snippet|]; [|discriminate].
  intros H. inversion H. subst. simpl.
  split; [reflexivity|]. split; [reflexivity|].
  exists snippet. repeat split.
Qed.

Lemma json_found_populated (it : json_item) (video_id : string)
  (o : json_outcome) :
  json_found it = Return (video_id, o) -> without_null it -> populated o.
Proof.
  unfold json_found, without_null, populated.
  destruct (json_id it) as [i|]; [|discriminate].
  destruct (json_snippet it) as [snippet|] eqn:Es; [|discriminate].
  intros H Hnull. inversion H. subst. simpl.
  assert (Hs : forall key, dict_get key snippet <> Some None).
  { intros key. apply Hnull. now left. }
  assert (Ht : forall key,
             dict_get key (match json_statistics it with
                           | Some d => d | None => [] end) <> Some None).
  { intros key. destruct (json_statistics it) as [d|] eqn:Ed.
    - apply Hnull. right. now left.
    - discriminate. }
  assert (Hc : forall key,
             dict_get key (match json_contentDetails it with
                           | Some d => d | None => [] end) <> Some None).
  { intros key. destruct (json_contentDetails it) as [d|] eqn:Ed.
    - apply Hnull. right. now right.
    - discriminate. }
  repeat split; apply get_default_not_null; auto.
Qed.

Lemma json_found_has_keys (it : json_item) :
  has_keys it -> exists video_id o, json_found it = Return (video_id, o).
Proof.
  unfold has_keys, json_found. intros [Hi Hs].
  destruct (json_id it) as [i|]; [|now contradiction Hi].
  destruct (json_snippet it) as [snippet|]; [|now contradiction Hs].
  eexists. eexists. reflexivity.
Qed.

Lemma json_placeholder_classified (youtube : json_service) (e : string) :
  e <> "" -> json_classified youtube (json_placeholder e).
Proof. intros H. unfold json_classified. simpl. auto. Qed.

(** The loop over the items: what it keeps and which keys it leaves. *)
Lemma json_store_items_spec (youtube : json_service) (items : list json_item) :
  forall results results',
    json_store_items items results = Return results' ->
    (NoDup (dict_keys results) -> NoDup (dict_keys results'))
    /\ (forall video_id,
          dict_mem video_id results'
          = dict_mem video_id results || mem video_id (json_ids items))
    /\ ((forall it, In it items -> answered youtube it) ->
        Forall (fun e => json_classified youtube (snd e)) results ->
        Forall (fun e => json_classified youtube (snd e)) results').
Proof.
  induction items as [|it items IH]; intros results results' H; simpl in H.
  - inversion H. subst. repeat split; auto.
    intros video_id. simpl. now rewrite orb_false_r.
  - destruct (json_found it) as [[v o]|e] eqn:Ef; [|discriminate].
    destruct (IH _ _ H) as [Hnd [Hmem Hinv]].
    destruct (json_found_built _ _ _ Ef) as [Hid [Herr _]].
    split; [|split].
    + intros Hr. apply Hnd. now apply dict_set_NoDup.
    + intros video_id. rewrite Hmem, dict_mem_set.
      unfold json_ids. simpl. fold (json_ids items). rewrite Hid. simpl.
      destruct (String.eqb video_id v), (dict_mem video_id results);
        reflexivity.
    + intros Hans Hr. apply Hinv.
      * intros it' Hit'. apply Hans. now right.
      * apply dict_set_Forall; [|exact Hr].
        unfold json_classified. rewrite Herr. exists it, v.
        split; [apply Hans; now left | exact Ef].
Qed.

Lemma json_store_items_total (items : list json_item) :
  (forall it, In it items -> has_keys it) ->
  forall results, exists results',
    json_store_items items results = Return results'.
Proof.
  induction items as [|it items IH]; intros Hk results; simpl.
  - now exists results.
  - destruct (json_found_has_keys it (Hk it (or_introl eq_refl)))
      as [v [o Hf]].
    rewrite Hf. apply IH. intros it' Hit'. apply Hk. now right.
Qed.

Lemma json_store_missing_mem (video_id : string)
  (batch returned_ids : list string) :
  forall results,
    dict_mem video_id (json_store_missing batch returned_ids results)
    = dict_mem video_id results
      || (mem video_id batch && negb (mem video_id returned_ids)).
Proof.
  unfold json_store_missing.
  induction batch as [|x batch IH]; intros results; simpl.
  - now rewrite orb_false_r.
  - rewrite IH. destruct (String.eqb video_id x) eqn:E.
    + apply String.eqb_eq in E. subst x. simpl.
      destruct (mem video_id returned_ids); simpl.
      * now rewrite andb_false_r.
      * rewrite dict_mem_set, String.eqb_refl. simpl.
        destruct (dict_mem video_id results), (mem video_id batch);
          reflexivity.
    + simpl. destruct (mem x returned_ids); [reflexivity|].
      now rewrite dict_mem_set, E.
Qed.

Lemma json_store_failed_mem (video_id : string) (batch : list string)
  (error_message : string) :
  forall results,
    dict_mem video_id (json_store_failed batch error_message results)
    = dict_mem video_id results || mem video_id batch.
Proof.
  unfold json_store_failed.
  induction batch as [|x batch IH]; intros results; simpl.
  - now rewrite orb_false_r.
  - rewrite IH. destruct (dict_mem x results) eqn:Ex.
    + destruct (String.eqb video_id x) eqn:E; [|reflexivity].
      apply String.eqb_eq in E. subst x. now rewrite Ex.
    + rewrite dict_mem_set.
      destruct (String.eqb video_id x), (dict_mem video_id results);
        reflexivity.
Qed.

(** What one round keeps, when it returns. *)
Lemma json_round_spec (youtube : json_service) (n : nat)
  (batch : list string) (results results' : dict json_outcome) :
  snd (json_round youtube n batch results) = Return results' ->
  (NoDup (dict_keys results) -> NoDup (dict_keys results'))
  /\ (forall video_id,
        dict_mem video_id results = true \/ In video_id batch ->
        dict_mem video_id results' = true)
  /\ (Forall (fun e => json_classified youtube (snd e)) results ->
      Forall (fun e => json_classified youtube (snd e)) results').
Proof.
  unfold json_round. rewrite snd_bind. cbn [emit snd].
  destruct (youtube n (join "," batch)) as [items|status content] eqn:Ey.
  - destruct (json_store_items items results) as [r|e] eqn:Es; [|discriminate].
    cbn [ret snd]. intros H. inversion H. subst results'.
    destruct (json_store_items_spec youtube _ _ _ Es) as [Hnd [Hmem Hinv]].
    pose (P := fun d : dict json_outcome => NoDup (dict_keys d)).
    pose (Q := fun d : dict json_outcome =>
                 Forall (fun e => json_classified youtube (snd e)) d).
    split; [|split].
    + intros Hr. unfold json_store_missing. apply (fold_left_invariant P).
      * intros a b Ha. destruct (mem b (json_ids items));
          [assumption | now apply dict_set_NoDup].
      * now apply Hnd.
    + intros video_id Hv. rewrite json_store_missing_mem, Hmem.
      destruct Hv as [Hv|Hv].
      * now rewrite Hv.
      * apply mem_In in Hv. rewrite Hv.
        destruct (dict_mem video_id results), (mem video_id (json_ids items));
          reflexivity.
    + intros Hr. unfold json_store_missing. apply (fold_left_invariant Q).
      * intros a b Ha. destruct (mem b (json_ids items)); [assumption|].
        apply dict_set_Forall; [|assumption].
        apply json_placeholder_classified. discriminate.
      * apply Hinv; [|exact Hr].
        intros it Hit. exists n, (join "," batch), items. auto.
  - rewrite snd_bind. cbn [print ret snd]. intros H. inversion H.
    pose (P := fun d : dict json_outcome => NoDup (dict_keys d)).
    pose (Q := fun d : dict json_outcome =>
                 Forall (fun e => json_classified youtube (snd e)) d).
    split; [|split].
    + intros Hr. unfold json_store_failed. apply (fold_left_invariant P);
        [|assumption].
      intros a b Ha. destruct (dict_mem b a);
        [assumption | now apply dict_set_NoDup].
    + intros video_id Hv. rewrite json_store_failed_mem.
      destruct Hv as [Hv|Hv]; [now rewrite Hv|].
      apply mem_In in Hv. rewrite Hv. now rewrite orb_true_r.
    + intros Hr. unfold json_store_failed. apply (fold_left_invariant Q);
        [|assumption].
      intros a b Ha. destruct (dict_mem b a); [assumption|].
      apply dict_set_Forall; [|assumption].
      apply json_placeholder_classified. discriminate.
Qed.

Lemma json_round_total (youtube : json_service) (n : nat)
  (batch : list string) (results : dict json_outcome) :
  (forall it, answered youtube it -> has_keys it) ->
  exists results', snd (json_round youtube n batch results) = Return results'.
Proof.
  intros Hk. unfold json_round. rewrite snd_bind. cbn [emit snd].
  destruct (youtube n (join "," batch)) as [items|status content] eqn:Ey.
  - destruct (json_store_items_total items) with (results := results)
      as [r Hr].
    { intros it Hit. apply Hk. exists n, (join "," batch), items. auto. }
    rewrite Hr. eexists. reflexivity.
  - rewrite snd_bind. cbn [print ret snd]. eexists. reflexivity.
Qed.

Lemma json_rounds_cons (youtube : json_service) (n : nat)
  (batch : list string) (bs : list (list string))
  (results : dict json_outcome) :
  json_rounds youtube n (batch :: bs) results
  = (results' <- json_round youtube n batch results ;;
     json_rounds youtube (S n) bs results').
Proof. reflexivity. Qed.

(** What the loop keeps, when it returns. *)
Lemma json_rounds_spec (youtube : json_service) (bs : list (list string)) :
  forall (n : nat) (results results' : dict json_outcome),
    snd (json_rounds youtube n bs results) = Return results' ->
    (NoDup (dict_keys results) -> NoDup (dict_keys results'))
    /\ (forall video_id,
          dict_mem video_id results = true \/ In video_id (concat bs) ->
          dict_mem video_id results' = true)
    /\ (Forall (fun e => json_classified youtube (snd e)) results ->
        Forall (fun e => json_classified youtube (snd e)) results').
Proof.
  induction bs as [|batch bs IH]; intros n results results' H.
  - simpl in H. inversion H. subst. repeat split; auto.
    intros video_id [Hv|[]]. exact Hv.
  - rewrite json_rounds_cons, snd_bind in H.
    destruct (snd (json_round youtube n batch results)) as [r|e] eqn:Er;
      [|discriminate].
    destruct (json_round_spec _ _ _ _ _ Er) as [Hnd [Hmem Hinv]].
    destruct (IH _ _ _ H) as [Hnd' [Hmem' Hinv']].
    split; [|split].
    + intros Hr. auto.
    + intros video_id Hv. apply Hmem'. simpl in Hv.
      destruct Hv as [Hv|Hv]; [left; apply Hmem; now left|].
      apply in_app_or in Hv. destruct Hv as [Hv|Hv];
        [left; apply Hmem; now right | now right].
    + intros Hr. auto.
Qed.

Lemma json_rounds_total (youtube : json_service) (bs : list (list string)) :
  (forall it, answered youtube it -> has_keys it) ->
  forall (n : nat) (results : dict json_outcome),
    exists results', snd (json_rounds youtube n bs results) = Return results'.
Proof.
  intros Hk. induction bs as [|batch bs IH]; intros n results.
  - now exists results.
  - rewrite json_rounds_cons, snd_bind.
    destruct (json_round_total youtube n batch results Hk) as [r Hr].
    rewrite Hr. apply IH.
Qed.

(** C2, as the code has it.  [get_video_metrics] returns when every item of
    every response has its [id] and its [snippet].  Every outcome of the
    mapping it returns has no error and is built from an item of a
    response, each data field holding what the item holds for it or the
    placeholder when the item lacks the key, or it has an error that is a
    non-empty string together with the placeholder in each of the seven data
    fields.  In the first case the seven data fields are strings, none of
    them [None], when no field of any response is [null]. *)
Theorem json_outcomes_classified (build : string -> json_service)
  (video_ids : list string) (api_key : string) :
  ((forall it, answered (build api_key) it -> has_keys it) ->
   exists ev results,
     json_get_video_metrics build video_ids api_key = (ev, Return results))
  /\ forall ev results,
       json_get_video_metrics build video_ids api_key = (ev, Return results) ->
       forall video_id o,
         dict_get video_id results = Some o ->
         match j_error o with
         | None =>
             (exists it, answered (build api_key) it /\ built_from it o)
             /\ ((forall it, answered (build api_key) it -> without_null it) ->
                 populated o)
         | Some e =>
             e <> ""
             /\ j_title o = Some "N/A" /\ j_channel_name o = Some "N/A"
             /\ j_upload_date o = Some "N/A" /\ j_view_count o = Some "0"
             /\ j_like_count o = Some "0" /\ j_comment_count o = Some "0"
             /\ j_duration o = Some "N/A"
         end.
Proof.
  unfold json_get_video_metrics. split.
  - intros Hk.
    destruct (json_rounds_total (build api_key) (batches video_ids) Hk 0 [])
      as [r Hr].
    destruct (json_rounds (build api_key) 0 (batches video_ids) []) as [ev x].
    simpl in Hr. subst x. now exists ev, r.
  - intros ev results Heq video_id o Hget.
    assert (Hs : snd (json_rounds (build api_key) 0 (batches video_ids) [])
                 = Return results) by now rewrite Heq.
    destruct (json_rounds_spec _ _ _ _ _ Hs) as [_ [_ Hinv]].
    specialize (Hinv (Forall_nil _)). rewrite Forall_forall in Hinv.
    apply dict_get_In in Hget. specialize (Hinv _ Hget).
    unfold json_classified in Hinv. simpl in Hinv.
    destruct (j_error o) as [e|].
    + destruct Hinv as [Hne Ho]. subst o. simpl. repeat split. exact Hne.
    + destruct Hinv as [it [v [Hans Hf]]]. split.
      * exists it. split; [exact Hans|].
        now apply json_found_built in Hf.
      * intros Hnull. apply (json_found_populated it v o Hf). now apply Hnull.
Qed.

Lemma json_outcomes_classified_witness :
  exists ev results,
    json_get_video_metrics
      (fun _ => json_always [json_video "v1" "One" "2025-01-01T00:00:00Z" "10"])
      ["v1"; "v2"] "KEY" = (ev, Return results)
    /\ (exists o, dict_get "v1" results = Some o
                  /\ j_error o = None /\ populated o)
    /\ (exists o, dict_get "v2" results = Some o
                  /\ j_error o = Some not_found
                  /\ j_title o = Some "N/A" /\ j_view_count o = Some "0").
Proof.
  pose (build := fun _ : string =>
          json_always [json_video "v1" "One" "2025-01-01T00:00:00Z" "10"]).
  destruct (json_outcomes_classified build ["v1"; "v2"] "KEY") as [Hret Hall].
  assert (Hitem : forall it, answered (build "KEY") it ->
            it = json_video "v1" "One" "2025-01-01T00:00:00Z" "10").
  { intros it [n [id [items [Hy Hin]]]]. unfold build, json_always in Hy.
    inversion Hy. subst items. destruct Hin as [H|[]]. now subst. }
  destruct Hret as [ev [results Heq]].
  { intros it Hit. rewrite (Hitem it Hit). split; discriminate. }
  exists ev, results. split; [exact Heq|].
  assert (H1 : exists o, dict_get "v1" results = Some o /\ j_error o = None).
  { vm_compute in Heq. inversion Heq. eexists. split; reflexivity. }
  assert (H2 : dict_get "v2" results = Some (json_placeholder not_found)).
  { vm_compute in Heq. inversion Heq. reflexivity. }
  split.
  - destruct H1 as [o [Hget Herr]]. exists o. split; [exact Hget|].
    split; [exact Herr|].
    pose proof (Hall ev results Heq "v1" o Hget) as H. rewrite Herr in H.
    apply H. intros it Hit. rewrite (Hitem it Hit).
    intros d key [Hd|[Hd|Hd]]; inversion Hd; subst d; simpl;
      repeat (destruct (String.eqb key _); [discriminate|]); discriminate.
  - exists (json_placeholder not_found). split; [exact H2|].
    pose proof (Hall ev results Heq "v2" _ H2) as H. simpl in H.
    split; [reflexivity|]. split; apply H.
Defined.

(** The claim C2 as it is worded fails: for an item whose title is [null]
    the outcome has no error and its title is [None]. *)
Lemma json_outcomes_classified_counterexample :
  exists ev results o,
    json_get_video_metrics (fun _ => json_always [json_untitled "a"])
                           ["a"] "KEY" = (ev, Return results)
    /\ dict_get "a" results = Some o
    /\ j_error o = None
    /\ j_title o = None
    /\ j_view_count o = Some "0".
Proof.
  eexists. eexists. eexists.
  split; [reflexivity|]. split; [reflexivity|]. repeat split.
Qed.



